(** * Interactive Feedback MCP: the session controller and its tool entry point

    A shallow embedding of [server.py] and of the session controller of
    [feedback_ui.py] (the [FeedbackUI] window and its handlers, the file
    list, [kill_tree], [get_user_environment] and the compositor
    [_submit_feedback]), with the properties of the specification
    stated and settled against it, followed by further properties of
    the code.

    Python values are modelled as follows.
    - [str] is a list of Unicode code points ([N]); literals are written
      [py "..."] for ASCII text.
    - a Python [set] of strings is a [gset str]; its iteration order,
      which CPython leaves unspecified, is an explicit argument wherever
      the source iterates the set without sorting it.
    - an insertion-ordered [dict] is an association list.
    - the [QSettings] store is a [gmap] from key text to stored value.
    - code that can raise returns a [result]; code that talks to the
      operating system threads a world through a small state-and-error
      monad. *)

From Stdlib Require Import ZArith NArith Ascii String List Lia Permutation
  DecimalString.
From stdpp Require Import base decidable option list gmap sets sorting.

Local Open Scope N_scope.
Local Open Scope list_scope.

(** ** Python strings *)

Module Str.

Abbreviation str := (list N).

(** An ASCII literal as a Python string. *)
Definition py (s : string) : str :=
  List.map N_of_ascii (list_ascii_of_string s).

Definition LF : N := 10.

(** [str.isspace] for one code point: the white-space table of CPython
    ([_PyUnicode_IsWhitespace]). *)
Definition isspace (c : N) : bool :=
  ((9 <=? c) && (c <=? 13)) || ((28 <=? c) && (c <=? 32))
  || (c =? 133) || (c =? 160) || (c =? 5760)
  || ((8192 <=? c) && (c <=? 8202))
  || (c =? 8232) || (c =? 8233) || (c =? 8239) || (c =? 8287)
  || (c =? 12288).

Fixpoint lstrip (s : str) : str :=
  match s with
  | [] => []
  | c :: s' => if isspace c then lstrip s' else s
  end.

Definition rstrip (s : str) : str := rev (lstrip (rev s)).

(** [s.strip()] *)
Definition strip (s : str) : str := rstrip (lstrip s).

(** [s.split(sep)] for a one-character separator: the pieces between
    the separators, never an empty list. *)
Fixpoint split (sep : N) (s : str) : list str :=
  match s with
  | [] => [[]]
  | c :: s' =>
      if c =? sep then [] :: split sep s'
      else match split sep s' with
           | [] => [[c]]
           | w :: ws => (c :: w) :: ws
           end
  end.

(** [sep.join(parts)] *)
Fixpoint join (sep : str) (parts : list str) : str :=
  match parts with
  | [] => []
  | [p] => p
  | p :: ps => p ++ sep ++ join sep ps
  end.

(** [s.lower()] on one code point. Only the ASCII capitals are mapped:
    the callers test the result against ASCII suffixes, and no code
    point other than an ASCII capital has an ASCII letter as its
    lower-case form except U+212A (to k) and U+0130 (to i followed by
    U+0307), neither of which occurs in the suffixes tested. *)
Definition lower_char (c : N) : N :=
  if (65 <=? c) && (c <=? 90) then c + 32 else c.

Definition lower (s : str) : str := List.map lower_char s.

Fixpoint startswith (s p : str) {struct p} : bool :=
  match p, s with
  | [], _ => true
  | _ :: _, [] => false
  | a :: p', b :: s' => (a =? b) && startswith s' p'
  end.

(** [s.endswith(suffix)] *)
Definition endswith (s suffix : str) : bool :=
  startswith (rev s) (rev suffix).

(** [needle in s] *)
Fixpoint contains (s needle : str) : bool :=
  startswith s needle ||
  match s with
  | [] => false
  | _ :: s' => contains s' needle
  end.

(** [a] occurs in [s], and [b] occurs after the end of that
    occurrence. *)
Fixpoint occurs_before (s a b : str) : bool :=
  (startswith s a && contains (drop (length a) s) b) ||
  match s with
  | [] => false
  | _ :: s' => occurs_before s' a b
  end.

(** Truth value of a string: non-empty. *)
Definition truthy (s : str) : bool :=
  match s with [] => false | _ => true end.

(** [a <= b] on strings: lexicographic on code points. *)
Fixpoint leb (a b : str) : bool :=
  match a, b with
  | [], _ => true
  | _ :: _, [] => false
  | x :: a', y :: b' => (x <? y) || ((x =? y) && leb a' b')
  end.

Definition le (a b : str) : Prop := leb a b = true.

Fixpoint insert_sorted (x : str) (l : list str) : list str :=
  match l with
  | [] => [x]
  | y :: l' => if leb x y then x :: l else y :: insert_sorted x l'
  end.

(** [sorted(l)] for a list of strings. *)
Definition sorted (l : list str) : list str :=
  foldr insert_sorted [] l.

End Str.

Import Str.

(** ** Results of code that can raise *)

Inductive result (E A : Type) : Type :=
| Ok (a : A)
| Raise (e : E).
Arguments Ok {E A} a.
Arguments Raise {E A} e.

(** * server.py *)

Module Server.

(** What [launch_feedback_ui] passes on the command line of
    [feedback_ui.py]: [--project-directory], [--prompt] and, when the
    list is not empty, [--modified-files] (the list as JSON text, which
    the UI parses back to the same list). *)
Record ui_invocation : Type := {
  arg_project_directory : str;
  arg_prompt : str;
  arg_modified_files : option (list str)
}.

Section FileSystem.

(** The file system as the server sees it. [glob_md d] is
    [glob.glob(os.path.join(d, "**", "*.md"), recursive=True)];
    [getmtime] and [relpath] are the functions of [os.path], [None]
    standing for a raised exception. Modification times are floats
    that are only compared, so they are modelled by integers. *)
Variable glob_md : str -> list str.
Variable getmtime : str -> option Z.
Variable relpath : str -> str -> option str.

(** Insert into a list sorted by descending key, before the first
    entry whose key is not larger: equal keys keep their order. *)
Fixpoint insert_desc (x : str * Z) (l : list (str * Z)) : list (str * Z) :=
  match l with
  | [] => [x]
  | y :: l' =>
      if (snd y <=? snd x)%Z then x :: l else y :: insert_desc x l'
  end.

(** [l.sort(key=..., reverse=True)] on the list of (file, key). *)
Definition sort_desc (l : list (str * Z)) : list (str * Z) :=
  foldr insert_desc [] l.

(** The keys of all files, or [None] when [getmtime] raises for one
    of them. *)
Fixpoint with_mtime (l : list str) : option (list (str * Z)) :=
  match l with
  | [] => Some []
  | f :: l' =>
      match getmtime f, with_mtime l' with
      | Some t, Some r => Some ((f, t) :: r)
      | _, _ => None
      end
  end.

Definition find_latest_modified_md_file (project_directory : str)
  : option str :=
  let md_files := glob_md project_directory in
  match md_files with
  | [] => None
  | _ :: _ =>
      match with_mtime md_files with
      | None => None
      | Some keyed =>
          match sort_desc keyed with
          | [] => None
          | (latest_file, _) :: _ => relpath latest_file project_directory
          end
      end
  end.

Definition enhance_modified_files (project_directory : str)
    (modified_files : option (list str)) : list str :=
  let enhanced_files :=
    match modified_files with
    | Some (x :: l) => x :: l
    | _ => []
    end in
  match find_latest_modified_md_file project_directory with
  | Some latest_md =>
      if truthy latest_md && bool_decide (latest_md ∉ enhanced_files)
      then enhanced_files ++ [latest_md]
      else enhanced_files
  | None => enhanced_files
  end.

Definition launch_feedback_ui (project_directory summary : str)
    (modified_files : option (list str)) : ui_invocation :=
  let enhanced_modified_files :=
    enhance_modified_files project_directory modified_files in
  {| arg_project_directory := project_directory;
     arg_prompt := summary;
     arg_modified_files :=
       match enhanced_modified_files with
       | [] => None
       | _ :: _ => Some enhanced_modified_files
       end |}.

Definition first_line (text : str) : str :=
  strip (hd [] (split LF text)).

Definition interactive_feedback (project_directory summary : str)
    (modified_files : option (list str)) : ui_invocation :=
  launch_feedback_ui (first_line project_directory) (first_line summary)
    modified_files.

End FileSystem.

(** The [__main__] block of [feedback_ui.py] and the first lines of
    [FeedbackUI.__init__]: the candidate list of the session. *)
Definition ui_modified_files (inv : ui_invocation) : list str :=
  match arg_modified_files inv with
  | Some (x :: l) => x :: l
  | _ => []
  end.

End Server.

(** * The host: processes (psutil, subprocess) and files *)

Module Host.

(** The subclasses of [psutil.Error] that the process methods raise. *)
Inductive psutil_Error : Type :=
| NoSuchProcess (pid : N)
| ZombieProcess (pid : N)
| AccessDenied (pid : N).

(** Exceptions of the program: a [psutil.Error], or any other
    [Exception] with its message [str(e)]. *)
Inductive exn : Type :=
| PsutilError (e : psutil_Error)
| Exception (msg : str).

(** What the controller asks of its host. A [psutil.Process] object and
    a [subprocess.Popen] object are both identified by their pid.
    Queries read the world; [kill], [terminate] and [Popen] change it.
    The psutil methods raise nothing but [psutil.Error]. *)
Class Host (W : Type) : Type := {
  (** [psutil.Process(pid)] *)
  psutil_Process : N -> W -> result psutil_Error N;
  (** [p.children(recursive=True)] *)
  Process_children : N -> W -> result psutil_Error (list N);
  (** [p.kill()] *)
  Process_kill : N -> W -> result psutil_Error unit * W;
  (** [p.is_running()] *)
  Process_is_running : N -> W -> result psutil_Error bool;
  (** [p.terminate()] *)
  Process_terminate : N -> W -> result psutil_Error unit * W;
  (** [subprocess.Popen(command, shell=True, cwd=cwd,
      env=get_user_environment(), ...)]: the pid of the new process, or
      the message of the exception raised by the call or by the
      evaluation of its arguments. *)
  Popen : str -> str -> W -> result str N * W;
  (** [os.path.join] *)
  os_path_join : str -> str -> str;
  (** [os.path.exists] *)
  os_path_exists : str -> W -> bool;
  (** [open(path, 'r', encoding='utf-8', errors='ignore').read()], or
      the message of the exception. *)
  read_text : str -> W -> result str str;
  (** [get_project_settings_group]: the last path component and eight
      hexadecimal digits of the MD5 of the path. *)
  get_project_settings_group : str -> str
}.

(** State and exceptions. *)
Definition M (W A : Type) : Type := W -> result exn A * W.

Definition ret {W A} (a : A) : M W A := fun w => (Ok a, w).

Definition bind {W A B} (m : M W A) (k : A -> M W B) : M W B :=
  fun w =>
    match m w with
    | (Ok a, w') => k a w'
    | (Raise e, w') => (Raise e, w')
    end.

Definition raise {W A} (e : exn) : M W A := fun w => (Raise e, w).

(** A psutil query, its error raised as an exception. *)
Definition query {W A} (q : W -> result psutil_Error A) : M W A :=
  fun w =>
    match q w with
    | Ok a => (Ok a, w)
    | Raise e => (Raise (PsutilError e), w)
    end.

End Host.

Import Host.

Notation "'do' x <- m ; k" := (bind m (fun x => k))
  (at level 10, x name, m at level 100, k at level 200).

(** * feedback_ui.py *)

Section KillTree.

Context {W : Type} `{Host W}.

(** The first loop of [kill_tree]: kill every child, remembering
    those for which [kill] did not raise. *)
Fixpoint kill_children (procs killed : list N) : M W (list N) :=
  match procs with
  | [] => ret killed
  | proc :: rest => fun w =>
      match Process_kill proc w with
      | (Ok _, w') => kill_children rest (killed ++ [proc]) w'
      | (Raise _, w') => kill_children rest killed w'
      end
  end.

(** [try: parent.kill() except psutil.Error: pass] *)
Definition kill_parent (parent : N) : M W unit :=
  fun w => (Ok tt, snd (Process_kill parent w)).

(** The last loop: terminate what still runs. *)
Fixpoint terminate_remaining (killed : list N) : M W unit :=
  match killed with
  | [] => ret tt
  | proc :: rest => fun w =>
      match Process_is_running proc w with
      | Ok true => terminate_remaining rest (snd (Process_terminate proc w))
      | Ok false => terminate_remaining rest w
      | Raise _ => terminate_remaining rest w
      end
  end.

Definition kill_tree (process : N) : M W unit :=
  do parent <- query (psutil_Process process);
  do procs <- query (Process_children parent);
  do killed <- kill_children procs [];
  do _ <- kill_parent parent;
  terminate_remaining (killed ++ [parent]).

End KillTree.

(** ** The result handed back to the caller *)

Module FeedbackResult.

Record t : Type := mk {
  command_logs : str;
  interactive_feedback : str;
  modified_files_content : option str;
  selected_files : list str
}.

End FeedbackResult.

(** ** The settings store

    Entries are addressed by group and key. Only the entries the
    controller reads back are modelled: Boolean ones (rule states,
    [execute_automatically]) and texts ([run_command],
    [feedback_draft]); the window geometry is presentation. *)

Module QSettings.

Record t : Type := mk {
  bools : gmap (str * str) bool;
  texts : gmap (str * str) str
}.

(** [settings.value(key, default, type=bool)] inside [group] *)
Definition value_bool (s : t) (group key : str) (dflt : bool) : bool :=
  default dflt (bools s !! (group, key)).

(** [settings.value(key, default, type=str)] inside [group] *)
Definition value_text (s : t) (group key : str) (dflt : str) : str :=
  default dflt (texts s !! (group, key)).

Definition setValue_bool (group key : str) (v : bool) (s : t) : t :=
  mk (<[(group, key) := v]> (bools s)) (texts s).

Definition setValue_text (group key : str) (v : str) (s : t) : t :=
  mk (bools s) (<[(group, key) := v]> (texts s)).

Definition remove (group key : str) (s : t) : t :=
  mk (delete (group, key) (bools s)) (delete (group, key) (texts s)).

End QSettings.

(** ** The window *)

Module FeedbackUI.

Record FeedbackConfig : Type := {
  run_command : str;
  execute_automatically : bool
}.

(** A rule check box with the attributes the code hangs on it. *)
Record QCheckBox : Type := {
  rule_label : str;
  isChecked : bool;
  _initial_state : bool
}.

(** [rules_config] of [_create_rules_section]; U+2014 is the dash of
    the second text. *)
Definition rules_config : list (str * str) :=
  [ (py "single_operation",
     py "ALWAYS BATCH EDIT: GROUP all EDITS on the SAME FILE into ONE OPERATION, do NOT use MULTIPLE CALLS, READ ENTIRE FILE in ONE CALL, do NOT CREATE or MODIFY other FILES unless REQUESTED, applies to ALL TOOL CALLS.");
    (py "no_new_md",
     py "AFTER EVERY ACTION OR RESPONSE, THE AGENT MUST CALL MCP interactive_feedback "
       ++ [8212] ++ py " WITHOUT EXCEPTION " ++ [8212]
       ++ py " AND MUST NOT COMPLETE OR END THE PROCESS UNTIL USER FEEDBACK IS EMPTY.") ].

(** [d[k] = v] on an insertion-ordered dict: a present key keeps its
    place. *)
Fixpoint dict_set {V : Type} (k : str) (v : V) (d : list (str * V))
  : list (str * V) :=
  match d with
  | [] => [(k, v)]
  | (k', v') :: d' =>
      if decide (k = k') then (k, v) :: d' else (k', v') :: dict_set k v d'
  end.

(** [d.get(k)] *)
Fixpoint dict_get {V : Type} (k : str) (d : list (str * V)) : option V :=
  match d with
  | [] => None
  | (k', v) :: d' => if decide (k = k') then Some v else dict_get k d'
  end.

(** An iteration order of a Python set: each member once. CPython
    fixes one such order for a given set object, depending on the
    hashes of the members; nothing else may be assumed of it. *)
Definition set_iteration (s : gset str) (order : list str) : Prop :=
  NoDup order ∧ list_to_set order = s.

Record t : Type := mk {
  project_directory : str;
  prompt : str;
  modified_files : list str;
  (** the Python [set] [self.selected_files] *)
  selected_files : gset str;
  (** the [Popen] object, by its pid *)
  process : option N;
  log_buffer : list str;
  feedback_result : option FeedbackResult.t;
  (** the [QSettings] store *)
  settings : QSettings.t;
  project_group_name : str;
  config : FeedbackConfig;
  (** text of the command line edit *)
  command_entry : str;
  (** caption of the run button *)
  run_button : str;
  (** lines shown in the console widget *)
  log_text : list str;
  (** [FileListWidget.file_items], path to checked state, once the
      file section exists ([hasattr(self, 'file_list')]) *)
  file_list : option (list (str * bool));
  (** [self.rules_checkboxes], rule key to check box *)
  rules_checkboxes : list (str * QCheckBox);
  (** content of the free-text field *)
  feedback_text : str
}.

Definition set_selected_files (v : gset str) (self : t) : t :=
  mk (project_directory self) (prompt self) (modified_files self) v
    (process self) (log_buffer self) (feedback_result self) (settings
    self) (project_group_name self) (config self) (command_entry self)
    (run_button self) (log_text self) (file_list self) (rules_checkboxes
    self) (feedback_text self).

Definition set_process (v : option N) (self : t) : t :=
  mk (project_directory self) (prompt self) (modified_files self)
    (selected_files self) v (log_buffer self) (feedback_result self)
    (settings self) (project_group_name self) (config self)
    (command_entry self) (run_button self) (log_text self) (file_list
    self) (rules_checkboxes self) (feedback_text self).

Definition set_log_buffer (v : list str) (self : t) : t :=
  mk (project_directory self) (prompt self) (modified_files self)
    (selected_files self) (process self) v (feedback_result self)
    (settings self) (project_group_name self) (config self)
    (command_entry self) (run_button self) (log_text self) (file_list
    self) (rules_checkboxes self) (feedback_text self).

Definition set_feedback_result (v : option FeedbackResult.t) (self : t) : t :=
  mk (project_directory self) (prompt self) (modified_files self)
    (selected_files self) (process self) (log_buffer self) v (settings
    self) (project_group_name self) (config self) (command_entry self)
    (run_button self) (log_text self) (file_list self) (rules_checkboxes
    self) (feedback_text self).

Definition set_settings (v : QSettings.t) (self : t) : t :=
  mk (project_directory self) (prompt self) (modified_files self)
    (selected_files self) (process self) (log_buffer self)
    (feedback_result self) v (project_group_name self) (config self)
    (command_entry self) (run_button self) (log_text self) (file_list
    self) (rules_checkboxes self) (feedback_text self).

Definition set_run_button (v : str) (self : t) : t :=
  mk (project_directory self) (prompt self) (modified_files self)
    (selected_files self) (process self) (log_buffer self)
    (feedback_result self) (settings self) (project_group_name self)
    (config self) (command_entry self) v (log_text self) (file_list
    self) (rules_checkboxes self) (feedback_text self).

Definition set_log_text (v : list str) (self : t) : t :=
  mk (project_directory self) (prompt self) (modified_files self)
    (selected_files self) (process self) (log_buffer self)
    (feedback_result self) (settings self) (project_group_name self)
    (config self) (command_entry self) (run_button self) v (file_list
    self) (rules_checkboxes self) (feedback_text self).

Definition set_file_list (v : option (list (str * bool))) (self : t) : t :=
  mk (project_directory self) (prompt self) (modified_files self)
    (selected_files self) (process self) (log_buffer self)
    (feedback_result self) (settings self) (project_group_name self)
    (config self) (command_entry self) (run_button self) (log_text self)
    v (rules_checkboxes self) (feedback_text self).

Definition set_rules_checkboxes (v : list (str * QCheckBox)) (self : t) : t :=
  mk (project_directory self) (prompt self) (modified_files self)
    (selected_files self) (process self) (log_buffer self)
    (feedback_result self) (settings self) (project_group_name self)
    (config self) (command_entry self) (run_button self) (log_text self)
    (file_list self) v (feedback_text self).

(** Two windows that differ at most in the file list and in the
    selection. *)
Definition same_but_files (a b : t) : Prop :=
  project_directory a = project_directory b
  ∧ prompt a = prompt b
  ∧ modified_files a = modified_files b
  ∧ process a = process b
  ∧ log_buffer a = log_buffer b
  ∧ feedback_result a = feedback_result b
  ∧ settings a = settings b
  ∧ project_group_name a = project_group_name b
  ∧ config a = config b
  ∧ command_entry a = command_entry b
  ∧ run_button a = run_button b
  ∧ log_text a = log_text b
  ∧ rules_checkboxes a = rules_checkboxes b
  ∧ feedback_text a = feedback_text b.

(** [ClickableFileItem.__init__]: checked by default only for [.md]
    files. *)
Definition default_checked (file_path : str) : bool :=
  endswith (lower file_path) (py ".md").

(** The loop of [_create_file_changes_section], one file. *)
Definition add_candidate (self : t) (file_path : str) : t :=
  let items := dict_set file_path (default_checked file_path)
                 (default [] (file_list self)) in
  let self := set_file_list (Some items) self in
  if endswith (lower file_path) (py ".md")
  then set_selected_files (selected_files self ∪ {[ file_path ]}) self
  else self.

Definition _create_file_changes_section (self : t) : t :=
  foldl add_candidate (set_file_list (Some []) self) (modified_files self).

(** The loop of [_create_rules_section], one rule. *)
Definition add_rule (self : t) (rule : str * str) : t :=
  let '(rule_key, rule_text) := rule in
  let saved_state :=
    QSettings.value_bool (settings self) (project_group_name self)
      (py "rule_" ++ rule_key) true in
  let checkbox :=
    {| rule_label := rule_text;
       isChecked := true;
       _initial_state := saved_state |} in
  set_rules_checkboxes (dict_set rule_key checkbox (rules_checkboxes self))
    self.

Definition _create_rules_section (self : t) : t :=
  foldl add_rule (set_rules_checkboxes [] self) rules_config.

(** The parts of [_create_ui] that build session state. *)
Definition _create_ui (self : t) : t :=
  let self :=
    match modified_files self with
    | [] => self
    | _ :: _ => _create_file_changes_section self
    end in
  _create_rules_section self.

Definition _append_log (text : str) (self : t) : t :=
  set_log_text (log_text self ++ [rstrip text])
    (set_log_buffer (log_buffer self ++ [text]) self).

Definition clear_logs (self : t) : t :=
  set_log_text [] (set_log_buffer [] self).

Definition _get_selected_rules (self : t) : list str :=
  flat_map
    (fun entry : str * QCheckBox =>
       if isChecked (snd entry)
       then [py "- " ++ rule_label (snd entry)]
       else [])
    (rules_checkboxes self).

(** The rules section of the document, from the lines of the enabled
    rules. *)
Definition rules_section (selected_rules : list str) : str :=
  py "## Additional Rules to Apply:" ++ [LF] ++ join [LF] selected_rules.

(** The heading put between the files section and what follows. *)
Definition heading : str := py "## User Feedback:".

(** At least one rule is enabled. *)
Definition some_rule_enabled (self : t) : Prop :=
  ∃ key cb, (key, cb) ∈ rules_checkboxes self ∧ isChecked cb = true.

(** The check boxes are those of [rules_config], with their texts:
    true of a constructed window, and kept by every handler, none of
    which changes a key or a label. *)
Definition rules_as_configured (self : t) : Prop :=
  List.map (fun e : str * QCheckBox => (fst e, rule_label (snd e)))
    (rules_checkboxes self) = rules_config.

Definition _clear_draft (self : t) : t :=
  set_settings
    (QSettings.remove (project_group_name self) (py "feedback_draft")
       (settings self))
    self.

Section WithHost.

Context {W : Type} `{Host W}.

Definition _run_command (self : t) : M W t :=
  match process self with
  | Some p =>
      do _ <- kill_tree p;
      ret (set_run_button (py "&Run") (set_process None self))
  | None =>
      let self := set_log_buffer [] self in
      let command := command_entry self in
      if negb (truthy command)
      then ret (_append_log (py "Please enter a command to run" ++ [LF]) self)
      else
        let self := _append_log (py "$ " ++ command ++ [LF]) self in
        let self := set_run_button (py "Sto&p") self in
        fun w =>
          match Popen command (project_directory self) w with
          | (Ok pid, w') => (Ok (set_process (Some pid) self), w')
          | (Raise msg, w') =>
              (Ok (set_run_button (py "&Run")
                     (_append_log
                        (py "Error running command: " ++ msg ++ [LF])
                        self)),
               w')
          end
  end.

(** [FeedbackUI.__init__]: the session as constructed from the
    arguments and the settings store. *)
Definition init (project_directory prompt : str)
    (modified_files : option (list str)) (settings : QSettings.t)
  : M W t :=
  let group := get_project_settings_group project_directory in
  let loaded_run_command :=
    QSettings.value_text settings group (py "run_command") [] in
  let loaded_execute_auto :=
    QSettings.value_bool settings group (py "execute_automatically")
      false in
  let self :=
    {| project_directory := project_directory;
       prompt := prompt;
       modified_files := default [] modified_files;
       selected_files := ∅;
       process := None;
       log_buffer := [];
       feedback_result := None;
       settings := settings;
       project_group_name := group;
       config := {| run_command := loaded_run_command;
                    execute_automatically := loaded_execute_auto |};
       command_entry := loaded_run_command;
       run_button := py "&Run";
       log_text := [];
       file_list := None;
       rules_checkboxes := [];
       feedback_text := [] |} in
  let self := _create_ui self in
  if execute_automatically (config self)
  then _run_command self
  else ret self.

(** One selected file in [_get_selected_files_content]. *)
Definition file_block (w : W) (self : t) (file_path : str) : list str :=
  let full_path := os_path_join (project_directory self) file_path in
  if os_path_exists full_path w then
    match read_text full_path w with
    | Ok content =>
        [py "### " ++ file_path; py "```"; content; py "```"; []]
    | Raise msg =>
        [py "### " ++ file_path ++ py " (error reading: " ++ msg ++ py ")";
         []]
    end
  else [py "### " ++ file_path ++ py " (file not found)"; []].

(** [order] is the iteration order of [self.selected_files]. *)
Definition _get_selected_files_content (w : W) (self : t)
    (order : list str) : option str :=
  if bool_decide (selected_files self = ∅) then None
  else
    Some (join [LF]
            ([py "## Files Modified by User:"; []]
               ++ flat_map (file_block w self) (sorted order))).

(** [_submit_feedback] up to and including the assignment of
    [self.feedback_result]; [self.close()], which follows, is
    [closeEvent] below. [order] is the iteration order of
    [self.selected_files]. *)
Definition _submit_feedback (w : W) (self : t) (order : list str) : t :=
  let selected_files_content := _get_selected_files_content w self order in
  let selected_rules := _get_selected_rules self in
  let user_feedback := strip (feedback_text self) in
  let combined_feedback := user_feedback in
  let combined_feedback :=
    match selected_rules with
    | [] => combined_feedback
    | _ :: _ =>
        let rules_section := rules_section selected_rules in
        if truthy combined_feedback
        then rules_section ++ [LF; LF] ++ combined_feedback
        else rules_section
    end in
  let combined_feedback :=
    match selected_files_content with
    | Some content =>
        if truthy content then
          if truthy combined_feedback
          then content ++ [LF; LF] ++ heading ++ [LF]
                 ++ combined_feedback
          else content
        else combined_feedback
    | None => combined_feedback
    end in
  let self := _clear_draft self in
  set_feedback_result
    (Some {| FeedbackResult.command_logs := concat (log_buffer self);
             FeedbackResult.interactive_feedback := combined_feedback;
             FeedbackResult.modified_files_content :=
               selected_files_content;
             FeedbackResult.selected_files := order |})
    self.

(** [closeEvent], without the saving of the window layout. *)
Definition closeEvent (self : t) : M W t :=
  match process self with
  | Some p => do _ <- kill_tree p; ret self
  | None => ret self
  end.

(** [run] from the return of the event loop on: [self] is the
    window as the event loop left it. *)
Definition run (self : t) : M W FeedbackResult.t :=
  do _ <- match process self with
          | Some p => kill_tree p
          | None => ret tt
          end;
  match feedback_result self with
  | None =>
      ret {| FeedbackResult.command_logs := concat (log_buffer self);
             FeedbackResult.interactive_feedback := [];
             FeedbackResult.modified_files_content := None;
             FeedbackResult.selected_files := [] |}
  | Some r => ret r
  end.

End WithHost.

End FeedbackUI.

(** * A concrete host

    A process table, a table of readable files and the directories in
    which a command can be started: enough of an operating system to
    run the controller on concrete inputs. *)

Module SimpleHost.

Record world : Type := mk {
  (** the processes the system knows: pid and parent pid *)
  procs : list (N * N);
  (** the readable files: full path and content *)
  files : list (str * str);
  (** the directories that exist *)
  dirs : list str;
  (** the pid of the next process *)
  next_pid : N
}.

Definition known (pid : N) (w : world) : bool :=
  bool_decide (pid ∈ List.map fst (procs w)).

(** The processes whose ancestors are among [roots]. *)
Fixpoint descendants (fuel : nat) (table : list (N * N)) (roots : list N)
  : list N :=
  match fuel with
  | O => []
  | S fuel' =>
      let kids :=
        List.map fst
          (List.filter (fun e => bool_decide (snd e ∈ roots)) table) in
      match kids with
      | [] => []
      | _ :: _ => kids ++ descendants fuel' table kids
      end
  end.

Definition forget (pid : N) (w : world) : world :=
  mk (List.filter (fun e => negb (fst e =? pid)) (procs w))
     (files w) (dirs w) (next_pid w).

Definition signal (pid : N) (w : world) : result psutil_Error unit * world :=
  if known pid w then (Ok tt, forget pid w)
  else (Raise (NoSuchProcess pid), w).

Definition spawn (command cwd : str) (w : world) : result str N * world :=
  if bool_decide (cwd ∈ dirs w)
  then (Ok (next_pid w),
        mk (procs w ++ [(next_pid w, 0)]) (files w) (dirs w) (next_pid w + 1))
  else (Raise (py "[Errno 2] No such file or directory"), w).

(** [posixpath.join] of two components. *)
Definition join_path (a b : str) : str :=
  if startswith b (py "/") then b
  else if negb (truthy a) || endswith a (py "/") then a ++ b
  else a ++ py "/" ++ b.

Definition lookup_file (path : str) (w : world) : option str :=
  snd <$> List.find (fun e => bool_decide (fst e = path)) (files w).

#[global] Instance host : Host world := {
  psutil_Process pid w :=
    if known pid w then Ok pid else Raise (NoSuchProcess pid);
  Process_children pid w :=
    if known pid w
    then Ok (descendants (length (procs w)) (procs w) [pid])
    else Raise (NoSuchProcess pid);
  Process_kill := signal;
  Process_is_running pid w := Ok (known pid w);
  Process_terminate := signal;
  Popen := spawn;
  os_path_join := join_path;
  os_path_exists path w := bool_decide (is_Some (lookup_file path w));
  read_text path w :=
    match lookup_file path w with
    | Some content => Ok content
    | None => Raise (py "[Errno 2] No such file or directory")
    end;
  get_project_settings_group d := d ++ py "_00000000"
}.

End SimpleHost.

(** * Concrete sessions *)

Module Examples.
Import FeedbackUI.

Definition project : str := py "/proj".

(** A host with one readable file and no process. *)
Definition quiet_world : SimpleHost.world :=
  SimpleHost.mk [] [(py "/proj/a.txt", py "hello")] [project] 100.

(** The same host while a command runs: its shell (10), a child (11)
    and a grandchild (12). *)
Definition busy_world : SimpleHost.world :=
  SimpleHost.mk [(10, 1); (11, 10); (12, 11)]
    [(py "/proj/a.txt", py "hello")] [project] 100.

(** A window with the first rule enabled, the file [a.txt] selected
    and the given text typed. *)
Definition session_a (text : str) : FeedbackUI.t :=
  {| project_directory := project;
     prompt := py "Done.";
     modified_files := [py "a.txt"];
     selected_files := {[ py "a.txt" ]};
     process := None;
     log_buffer := [];
     feedback_result := None;
     settings := QSettings.mk ∅ ∅;
     project_group_name := py "/proj_00000000";
     config := {| run_command := []; execute_automatically := false |};
     command_entry := [];
     run_button := py "&Run";
     log_text := [];
     file_list := Some [(py "a.txt", true)];
     rules_checkboxes :=
       [ (py "single_operation",
          {| rule_label := default [] (snd <$> head rules_config);
             isChecked := true; _initial_state := true |});
         (py "no_new_md",
          {| rule_label := default [] (snd <$> last rules_config);
             isChecked := false; _initial_state := true |}) ];
     feedback_text := text |}.

(** A window with two selected files. *)
Definition session_b : FeedbackUI.t :=
  set_selected_files {[ py "a.md"; py "b.md" ]} (session_a (py "ok")).

(** A window with earlier command output, an empty command line and
    no process. *)
Definition session_logged : FeedbackUI.t :=
  set_log_buffer [py "old output" ++ [LF]] (session_a []).

(** The same window holding the handle of a process (4242) that the
    system no longer knows. *)
Definition session_child_gone : FeedbackUI.t :=
  set_process (Some 4242) session_logged.

(** A store in which the first rule was switched off in an earlier
    session of the project. *)
Definition stored_off : QSettings.t :=
  QSettings.mk
    {[ (py "/proj_00000000", py "rule_single_operation") := false ]} ∅.

(** A project with two [.md] files, the second modified last. *)
Definition glob_ex (d : str) : list str :=
  if bool_decide (d = project)
  then [py "/proj/README.md"; py "/proj/docs/notes.md"]
  else [].

Definition getmtime_ex (f : str) : option Z :=
  if bool_decide (f = py "/proj/README.md") then Some 1700000000%Z
  else if bool_decide (f = py "/proj/docs/notes.md") then Some 1700000500%Z
  else None.

(** The same project when [docs/notes.md] is a symbolic link whose
    target is gone: the glob still finds it, [getmtime] raises
    [FileNotFoundError] for it. *)
Definition getmtime_dangling (f : str) : option Z :=
  if bool_decide (f = py "/proj/README.md") then Some 1700000000%Z
  else None.

Definition relpath_ex (f d : str) : option str :=
  if startswith f (d ++ py "/") then Some (drop (length d + 1) f)
  else None.

End Examples.

(** * More of feedback_ui.py *)

(** ** get_user_environment

    On Windows the function walks the environment block returned by
    [CreateEnvironmentBlock]: strings of UTF-16 code units, each ended
    by a zero, the block ended by an empty string. The block is
    modelled by the code units from its first address on; reading past
    them is an access violation, which ends the process. *)

Module WinEnv.

Inductive error : Type :=
| RuntimeError (msg : str)
| ValueError (msg : str).

Inductive outcome : Type :=
| Returns (env : list (str * str))
| Raises (e : error)
| AccessViolation.

(** [s.index(c)] for one character: the first position, [None] for
    the [ValueError] of a missing character. *)
Fixpoint index (c : N) (s : str) : option nat :=
  match s with
  | [] => None
  | x :: s' => if x =? c then Some O else S <$> index c s'
  end.

(** The two nested loops: [current_string] collects code units up to
    the next zero; an empty string ends the walk; every other string
    is cut at its first [=] and stored. *)
Fixpoint parse_block (mem : list N) (current_string : str)
    (result : list (str * str)) : outcome :=
  match mem with
  | [] => AccessViolation
  | c :: mem' =>
      if c =? 0 then
        match current_string with
        | [] => Returns result
        | _ :: _ =>
            match index 61 current_string with
            | None => Raises (ValueError (py "substring not found"))
            | Some equal_index =>
                let key := take equal_index current_string in
                let value := drop (equal_index + 1) current_string in
                parse_block mem' [] (FeedbackUI.dict_set key value result)
            end
        end
      else parse_block mem' (current_string ++ [c]) result
  end.

(** [win32] is [sys.platform == "win32"], [environ] is [os.environ],
    [OpenProcessToken] is the success of that call and
    [CreateEnvironmentBlock] the block it fills in, [None] when it
    fails. The [finally] clauses release the block and the token and
    do not change what is returned or raised. *)
Definition get_user_environment (win32 : bool) (environ : list (str * str))
    (OpenProcessToken : bool) (CreateEnvironmentBlock : option (list N))
  : outcome :=
  if negb win32 then Returns environ
  else if negb OpenProcessToken
  then Raises (RuntimeError (py "Failed to open process token"))
  else
    match CreateEnvironmentBlock with
    | None => Raises (RuntimeError (py "Failed to create environment block"))
    | Some environment => parse_block environment [] []
    end.

(** [result[key] = value] for one variable. *)
Definition store (result : list (str * str)) (e : str * str)
  : list (str * str) :=
  FeedbackUI.dict_set (fst e) (snd e) result.

(** The block that holds the given variables, as Windows lays it out. *)
Definition block_of (entries : list (str * str)) : list N :=
  concat (List.map (fun e : str * str => fst e ++ [61] ++ snd e ++ [0])
            entries)
  ++ [0].

End WinEnv.

(** ** FileListWidget *)

Module FileListWidget.

(** [a < b] on strings. *)
Definition str_lt (a b : str) : bool := negb (Str.leb b a).

(** The sort key of [_reorder_files], [(not checked, path)], compared
    as Python compares tuples: [False] before [True], then the
    paths. *)
Definition key_lt (a b : str * bool) : bool :=
  if Bool.eqb (negb (snd a)) (negb (snd b))
  then (if bool_decide (fst a = fst b) then false
        else str_lt (fst a) (fst b))
  else negb (negb (snd a)) && negb (snd b).

(** One step of a stable sort: [x], which came first, stays before
    every entry that is not smaller. *)
Fixpoint insert_item (x : str * bool) (l : list (str * bool))
  : list (str * bool) :=
  match l with
  | [] => [x]
  | y :: l' => if key_lt y x then y :: insert_item x l' else x :: l
  end.

(** The order in which [_reorder_files] lays the items out; the
    argument is [self.file_items], path to state of the check box. *)
Definition _reorder_files (file_items : list (str * bool))
  : list (str * bool) :=
  foldr insert_item [] file_items.

Definition select_all (file_items : list (str * bool)) : list (str * bool) :=
  List.map (fun e : str * bool => (fst e, true)) file_items.

Definition deselect_all (file_items : list (str * bool))
  : list (str * bool) :=
  List.map (fun e : str * bool => (fst e, false)) file_items.

Definition get_selected_files (file_items : list (str * bool)) : list str :=
  List.map fst (List.filter snd file_items).

(** The item is not checked. *)
Definition unchecked (e : str * bool) : bool := negb (snd e).

End FileListWidget.

(** ** The other handlers of the window *)

Module Handlers.

Import FeedbackUI.

Definition _select_all_files (self : t) : t :=
  match file_list self with
  | Some file_items =>
      set_selected_files (list_to_set (modified_files self))
        (set_file_list (Some (FileListWidget.select_all file_items)) self)
  | None => self
  end.

Definition _deselect_all_files (self : t) : t :=
  match file_list self with
  | Some file_items =>
      set_selected_files ∅
        (set_file_list (Some (FileListWidget.deselect_all file_items)) self)
  | None => self
  end.

(** The check boxes of the file list and [self.selected_files] say the
    same: the listed paths are the candidates and the checked ones are
    the selected ones; without a file list there is no candidate and
    no selection. *)
Definition files_consistent (self : t) : Prop :=
  match file_list self with
  | Some file_items =>
      list_to_set (List.map fst file_items)
        =@{gset str} list_to_set (modified_files self)
      ∧ list_to_set (FileListWidget.get_selected_files file_items)
        = selected_files self
  | None => modified_files self = [] ∧ selected_files self = ∅
  end.

Definition _on_file_selection_changed_new (file_path : str)
    (is_checked : bool) (self : t) : t :=
  if is_checked
  then set_selected_files (selected_files self ∪ {[ file_path ]}) self
  else set_selected_files (selected_files self ∖ {[ file_path ]}) self.

Definition _auto_save_draft (self : t) : t :=
  let draft_text := strip (feedback_text self) in
  if truthy draft_text
  then set_settings
         (QSettings.setValue_text (project_group_name self)
            (py "feedback_draft") draft_text (settings self))
         self
  else self.

Definition _save_rule_state (rule_key : str) (checked : bool) (self : t)
  : t :=
  set_settings
    (QSettings.setValue_bool (project_group_name self)
       (py "rule_" ++ rule_key) checked (settings self))
    self.

Definition _save_config (self : t) : t :=
  let stored :=
    QSettings.setValue_bool (project_group_name self)
      (py "execute_automatically") (execute_automatically (config self))
      (QSettings.setValue_text (project_group_name self)
         (py "run_command") (run_command (config self)) (settings self)) in
  _append_log (py "Configuration saved for this project." ++ [LF])
    (set_settings stored self).

(** [str(n)] for an integer. *)
Definition str_of_int (n : Z) : str :=
  py (DecimalString.NilZero.string_of_int (Z.to_int n)).

Section WithHost.

Context {W : Type} `{Host W}.

(** The note that [_get_selected_files_content] puts after the path
    of a file in its heading: none for a file that was read. *)
Definition read_note (w : W) (self : t) (file_path : str) : str :=
  if os_path_exists (os_path_join (project_directory self) file_path) w then
    match read_text (os_path_join (project_directory self) file_path) w with
    | Ok _ => []
    | Raise msg => py " (error reading: " ++ msg ++ py ")"
    end
  else py " (file not found)".

(** [Popen.poll()]: the exit code once the process has ended. A
    second call returns the same code, so the two calls of the source
    are one here. *)
Variable poll : N -> W -> option Z * W.

Definition _check_process_status (self : t) (w : W) : t * W :=
  match process self with
  | None => (self, w)
  | Some p =>
      match poll p w with
      | (None, w') => (self, w')
      | (Some exit_code, w') =>
          (set_process None
             (set_run_button (py "&Run")
                (_append_log
                   ([LF] ++ py "Process exited with code "
                      ++ str_of_int exit_code ++ [LF])
                   self)),
           w')
      end
  end.

End WithHost.

End Handlers.

(** ** The signals a host receives

    A host paired with the list of the signals sent to it so far, to
    state which processes [kill_tree] signals and in which order. *)

Module Tracing.

Inductive signal : Type :=
| Kill (pid : N)
| Terminate (pid : N).

Definition traced (W : Type) : Type := W * list signal.

Definition record_signal {W A : Type} (s : signal)
    (send : W -> A * W) (w : traced W) : A * traced W :=
  (fst (send (fst w)), (snd (send (fst w)), snd w ++ [s])).

#[global] Instance traced_host {W : Type} `{Host W} : Host (traced W) := {
  psutil_Process pid w := psutil_Process pid (fst w);
  Process_children pid w := Process_children pid (fst w);
  Process_kill pid := record_signal (Kill pid) (Process_kill pid);
  Process_is_running pid w := Process_is_running pid (fst w);
  Process_terminate pid :=
    record_signal (Terminate pid) (Process_terminate pid);
  Popen command cwd w :=
    (fst (Popen command cwd (fst w)), (snd (Popen command cwd (fst w)), snd w));
  os_path_join := os_path_join;
  os_path_exists path w := os_path_exists path (fst w);
  read_text path w := read_text path (fst w);
  get_project_settings_group := get_project_settings_group
}.

End Tracing.

(** ** More concrete sessions *)

Module MoreExamples.

Import FeedbackUI Examples.

(** The window with the given text in the command line. *)
Definition with_command (command : str) (self : t) : t :=
  FeedbackUI.mk (project_directory self) (prompt self) (modified_files self)
    (selected_files self) (process self) (log_buffer self)
    (feedback_result self) (settings self) (project_group_name self)
    {| run_command := command; execute_automatically := true |}
    command (run_button self) (log_text self) (file_list self)
    (rules_checkboxes self) (feedback_text self).

(** A window ready to run [make], with earlier output in its log. *)
Definition session_make : FeedbackUI.t :=
  with_command (py "make") session_logged.

(** A host without the project directory: no command can start. *)
Definition bare_world : SimpleHost.world := SimpleHost.mk [] [] [] 100.

(** A window that holds the shell of [busy_world]. *)
Definition session_running : FeedbackUI.t :=
  set_process (Some 10) session_make.

(** [poll] on a host where every process has ended with code 3. *)
Definition poll_ended (pid : N) (w : SimpleHost.world)
  : option Z * SimpleHost.world :=
  (Some 3%Z, SimpleHost.forget pid w).

(** A window with no rule enabled and no file. *)
Definition session_plain : FeedbackUI.t :=
  set_rules_checkboxes
    (List.map
       (fun rule : str * str =>
          (fst rule,
           {| rule_label := snd rule; isChecked := false;
              _initial_state := true |}))
       rules_config)
    (set_file_list None (set_selected_files ∅ (session_a (py " ok ")))).

(** Two variables of an environment block; the value of the second
    contains [=]. *)
Definition env_entries : list (str * str) :=
  [(py "PATH", py "C:/bin"); (py "OPTS", py "a=b")].

End MoreExamples.

(** * Facts about the string functions *)

Module StrFacts.

Lemma startswith_spec (s p : str) :
  startswith s p = true ↔ ∃ q, s = p ++ q.
Proof.
  revert s. induction p as [|a p IH]; intros s; simpl.
  - split; [intros _; by exists s | done].
  - destruct s as [|b s]; simpl.
    + split; [done | intros [q Hq]; discriminate].
    + rewrite andb_true_iff, N.eqb_eq, IH. split.
      * intros [-> [q ->]]. by exists q.
      * intros [q Hq]. injection Hq as -> ->. eauto.
Qed.

Lemma contains_spec (s n : str) :
  contains s n = true ↔ ∃ p q, s = p ++ n ++ q.
Proof.
  induction s as [|c s IH]; simpl.
  - rewrite orb_false_r, startswith_spec. split.
    + intros [q Hq]. by exists [], q.
    + intros (p & q & Hpq). destruct p; [by exists q|discriminate].
  - rewrite orb_true_iff, startswith_spec, IH. split.
    + intros [[q Hq] | (p & q & ->)].
      * by exists [], q.
      * by exists (c :: p), q.
    + intros (p & q & Hpq). destruct p as [|c' p]; simpl in Hpq.
      * left. by exists q.
      * right. injection Hpq as -> ->. by exists p, q.
Qed.

Lemma occurs_before_spec (s a b : str) :
  occurs_before s a b = true ↔ ∃ p m q, s = p ++ a ++ m ++ b ++ q.
Proof.
  induction s as [|c s IH].
  - change (occurs_before [] a b) with
      ((startswith [] a && contains (drop (length a) []) b) || false).
    rewrite orb_false_r, andb_true_iff, startswith_spec, contains_spec.
    rewrite drop_nil. split.
    + intros [[q Hq] (m & r & Hm)].
      symmetry in Hq. apply app_eq_nil in Hq as [-> ->].
      symmetry in Hm. apply app_eq_nil in Hm as [-> Hm].
      apply app_eq_nil in Hm as [-> ->]. by exists [], [], [].
    + intros (p & m & q & Hs).
      symmetry in Hs. apply app_eq_nil in Hs as [-> Hs].
      apply app_eq_nil in Hs as [-> Hs]. apply app_eq_nil in Hs as [-> Hs].
      apply app_eq_nil in Hs as [-> ->].
      split; [by exists [] | by exists [], []].
  - change (occurs_before (c :: s) a b) with
      ((startswith (c :: s) a && contains (drop (length a) (c :: s)) b)
       || occurs_before s a b).
    rewrite orb_true_iff, andb_true_iff, startswith_spec, contains_spec, IH.
    split.
    + intros [[[q Hq] (m & r & Hm)] | (p & m & q & ->)].
      * rewrite Hq, drop_app_length in Hm. subst q. by exists [], m, r.
      * by exists (c :: p), m, q.
    + intros (p & m & q & Hs). destruct p as [|c' p]; simpl in Hs.
      * left. split; [by exists (m ++ b ++ q)|].
        rewrite Hs, drop_app_length. by exists m, q.
      * right. injection Hs as -> ->. by exists p, m, q.
Qed.

Lemma endswith_spec (s x : str) :
  endswith s x = true ↔ ∃ q, s = q ++ x.
Proof.
  unfold endswith. rewrite startswith_spec. split.
  - intros [q Hq]. exists (rev q).
    rewrite <- (rev_involutive s), Hq, rev_app_distr.
    by rewrite rev_involutive.
  - intros [q ->]. exists (rev q). by rewrite rev_app_distr.
Qed.

(** The first piece of a split is the text before the first
    separator. *)
Lemma hd_split_app (sep : N) (l r : str) :
  sep ∉ l → hd [] (split sep (l ++ sep :: r)) = l.
Proof.
  induction l as [|c l IH]; intros Hl; simpl.
  - by rewrite N.eqb_refl.
  - destruct (N.eqb_spec c sep) as [->|Hne].
    + exfalso. apply Hl. left.
    + assert (sep ∉ l) as Hl' by (intros ?; apply Hl; by right).
      specialize (IH Hl').
      destruct (split sep (l ++ sep :: r)); simpl in *; by subst.
Qed.

Lemma hd_split_whole (sep : N) (l : str) :
  sep ∉ l → hd [] (split sep l) = l.
Proof.
  induction l as [|c l IH]; intros Hl; simpl; [done|].
  destruct (N.eqb_spec c sep) as [->|Hne].
  - exfalso. apply Hl. left.
  - assert (sep ∉ l) as Hl' by (intros ?; apply Hl; by right).
    specialize (IH Hl').
    destruct (split sep l); simpl in *; by subst.
Qed.

Lemma split_nonempty (sep : N) (s : str) : split sep s ≠ [].
Proof.
  destruct s as [|c s]; simpl; [done|].
  destruct (c =? sep); [done|]. by destruct (split sep s).
Qed.

(** [lstrip] removes a run of white space and stops at the first
    other character. *)
Lemma lstrip_spec (s : str) :
  ∃ a, s = a ++ lstrip s ∧ forallb isspace a = true
       ∧ (∀ c t, lstrip s = c :: t → isspace c = false).
Proof.
  induction s as [|c s (a & Hs & Ha & Hhd)]; simpl.
  - exists []. by repeat split.
  - destruct (isspace c) eqn:Hc.
    + exists (c :: a). simpl. rewrite Hc, Ha.
      split; [congruence|]. by split.
    + exists []. split; [done|]. split; [done|].
      by intros c' t [= <- <-].
Qed.

Lemma forallb_rev {A} (f : A → bool) (l : list A) :
  forallb f (rev l) = forallb f l.
Proof.
  induction l as [|x l IH]; simpl; [done|].
  rewrite forallb_app, IH. simpl. rewrite andb_true_r. apply andb_comm.
Qed.

(** [strip] removes white space at both ends and nothing else. *)
Lemma strip_spec (s : str) :
  ∃ a b, s = a ++ strip s ++ b
         ∧ forallb isspace a = true ∧ forallb isspace b = true
         ∧ (∀ c t, strip s = c :: t → isspace c = false)
         ∧ (∀ c t, strip s = t ++ [c] → isspace c = false).
Proof.
  destruct (lstrip_spec s) as (a & Hs & Ha & Hhd).
  destruct (lstrip_spec (rev (lstrip s))) as (b & Hr & Hb & Htl).
  assert (lstrip s = strip s ++ rev b) as Ht.
  { unfold strip, rstrip.
    rewrite <- (rev_involutive (lstrip s)) at 1.
    rewrite Hr at 1. by rewrite rev_app_distr. }
  exists a, (rev b). repeat split.
  - by rewrite <- Ht.
  - done.
  - by rewrite forallb_rev.
  - intros c t Hct. rewrite Hct in Ht. simpl in Ht. by eapply Hhd.
  - intros c t Hct. apply (Htl c (rev t)).
    unfold strip, rstrip in Hct.
    rewrite <- (rev_involutive (lstrip (rev (lstrip s)))), Hct.
    by rewrite rev_app_distr.
Qed.

(** Every text is a first line, alone or followed by a line feed and
    more text. *)
Lemma first_line_decompose (s : str) :
  ∃ l, (LF ∉ l) ∧ (s = l ∨ ∃ r, s = l ++ LF :: r).
Proof.
  induction s as [|c s (l & Hl & Hs)].
  - exists []. split; [by inversion 1 | by left].
  - destruct (decide (c = LF)) as [->|Hne].
    + exists []. split; [by inversion 1|]. right. by exists s.
    + exists (c :: l). split.
      * intros Hin. apply elem_of_cons in Hin as [?|?]; congruence.
      * destruct Hs as [-> | [r ->]]; [by left | right; by exists r].
Qed.
End StrFacts.

Import StrFacts.

(** * Facts about server.py *)

Module ServerFacts.
Import Server.

Section FileSystem.
Variable glob_md : str -> list str.
Variable getmtime : str -> option Z.
Variable relpath : str -> str -> option str.

Lemma first_line_app (l r : str) :
  LF ∉ l → first_line (l ++ LF :: r) = strip l.
Proof. intros Hl. unfold first_line. by rewrite hd_split_app. Qed.

Lemma first_line_whole (l : str) : LF ∉ l → first_line l = strip l.
Proof. intros Hl. unfold first_line. by rewrite hd_split_whole. Qed.

Lemma insert_desc_head (x : str * Z) (l : list (str * Z)) :
  ∃ y rest, insert_desc x l = y :: rest ∧ (y = x ∨ y ∈ l)
    ∧ (snd x <= snd y)%Z ∧ (∀ z, head l = Some z → (snd z <= snd y)%Z).
Proof.
  destruct l as [|y l]; simpl.
  - exists x, []. repeat split; [by left | lia | done].
  - destruct (Z.leb_spec (snd y) (snd x)).
    + exists x, (y :: l). repeat split; [by left | lia |].
      by intros z [= <-].
    + exists y, (insert_desc x l). repeat split; [right; left | lia |].
      intros z [= <-]. lia.
Qed.

Lemma sort_desc_head (l : list (str * Z)) :
  l ≠ [] →
  ∃ y rest, sort_desc l = y :: rest ∧ y ∈ l
    ∧ ∀ z, z ∈ l → (snd z <= snd y)%Z.
Proof.
  induction l as [|x l IH]; [done|]. intros _.
  change (sort_desc (x :: l)) with (insert_desc x (sort_desc l)).
  destruct (insert_desc_head x (sort_desc l)) as (y & rest & Hins & Hy & Hx & Hhd).
  exists y, rest. split; [done|].
  destruct l as [|x' l'].
  - simpl in *. injection Hins as <- <-. split; [left|].
    intros z Hz. apply list_elem_of_singleton in Hz as ->. lia.
  - destruct IH as (y' & rest' & Hs & Hy' & Hmax); [done|].
    rewrite Hs in *. specialize (Hhd y' eq_refl).
    split.
    + destruct Hy as [->|Hy]; [left|right].
      apply elem_of_cons in Hy as [->|Hy]; [done|].
      (* y is in the sorted tail *)
      assert (∀ z, z ∈ sort_desc (x' :: l') → z ∈ x' :: l') as Hsub.
      { clear. generalize (x' :: l'). intros l.
        induction l as [|a l IH]; [done|].
        change (sort_desc (a :: l)) with (insert_desc a (sort_desc l)).
        intros z Hz.
        assert (∀ m, z ∈ insert_desc a m → z = a ∨ z ∈ m) as Hin.
        { clear. induction m as [|b m IHm]; simpl.
          - intros Hz. apply list_elem_of_singleton in Hz. by left.
          - destruct (snd b <=? snd a)%Z.
            + intros Hz. apply elem_of_cons in Hz as [->|Hz]; [by left|by right].
            + intros Hz. apply elem_of_cons in Hz as [->|Hz]; [right; left|].
              destruct (IHm Hz) as [->|?]; [by left|right; by right]. }
        destruct (Hin _ Hz) as [->|Hz']; [left|right; by apply IH]. }
      apply Hsub. rewrite Hs. by right.
    + intros z Hz. apply elem_of_cons in Hz as [->|Hz]; [done|].
      specialize (Hmax z Hz). lia.
Qed.

Lemma with_mtime_elem (l : list str) (keyed : list (str * Z)) :
  with_mtime getmtime l = Some keyed →
  (∀ f t, (f, t) ∈ keyed → f ∈ l ∧ getmtime f = Some t)
  ∧ (∀ f, f ∈ l → ∃ t, (f, t) ∈ keyed ∧ getmtime f = Some t).
Proof.
  revert keyed. induction l as [|g l IH]; simpl; intros keyed Hk.
  - injection Hk as <-. split; intros; exfalso; eapply not_elem_of_nil; eauto.
  - destruct (getmtime g) as [tg|] eqn:Hg; [|done].
    destruct (with_mtime getmtime l) as [r|]; [|done].
    injection Hk as <-. destruct (IH r eq_refl) as [IH1 IH2]. split.
    + intros f t Hft. apply elem_of_cons in Hft as [[= -> ->]|Hft].
      * split; [left|done].
      * destruct (IH1 _ _ Hft). split; [by right|done].
    + intros f Hf. apply elem_of_cons in Hf as [->|Hf].
      * exists tg. split; [left|done].
      * destruct (IH2 _ Hf) as (t & ? & ?). exists t. split; [by right|done].
Qed.

Lemma with_mtime_total (l : list str) :
  (∀ g, g ∈ l → is_Some (getmtime g)) → is_Some (with_mtime getmtime l).
Proof.
  induction l as [|g l IH]; simpl; intros Hall; [done|].
  destruct (Hall g) as [t ->]; [left|].
  destruct IH as [r ->]; [|done]. intros; apply Hall; by right.
Qed.



Lemma ui_modified_files_launch (d s : str) (mf : option (list str)) :
  ui_modified_files (launch_feedback_ui glob_md getmtime relpath d s mf)
  = enhance_modified_files glob_md getmtime relpath d mf.
Proof.
  unfold ui_modified_files, launch_feedback_ui. simpl.
  by destruct (enhance_modified_files _ _ _ d mf).
Qed.

(** The search returns a file of the glob with the largest
    modification time, as a path relative to the directory. *)
Lemma find_latest_modified_md_file_spec (d : str) :
  glob_md d ≠ [] →
  (∀ g, g ∈ glob_md d → is_Some (getmtime g)) →
  ∃ f t, f ∈ glob_md d ∧ getmtime f = Some t
    ∧ (∀ g tg, g ∈ glob_md d → getmtime g = Some tg → (tg <= t)%Z)
    ∧ find_latest_modified_md_file glob_md getmtime relpath d
      = relpath f d.
Proof.
  intros Hne Hall. unfold find_latest_modified_md_file.
  destruct (with_mtime_total (glob_md d) Hall) as [keyed Hk].
  destruct (with_mtime_elem _ _ Hk) as [Hk1 Hk2].
  destruct (glob_md d) as [|g0 gs] eqn:Hg; [done|].
  rewrite Hk.
  assert (keyed ≠ []) as Hkne.
  { destruct (Hk2 g0) as (t0 & Hin & _); [left|]. intros ->.
    by eapply not_elem_of_nil. }
  destruct (sort_desc_head keyed Hkne) as ([f t] & rest & -> & Hin & Hmax).
  destruct (Hk1 _ _ Hin) as [Hf Ht].
  exists f, t. repeat split; try done.
  intros g tg Hgin Hgt. destruct (Hk2 _ Hgin) as (tg' & Hin' & Hgt').
  assert (tg' = tg) as -> by congruence.
  apply (Hmax (g, tg) Hin').
Qed.

(** White space is not found at an end of a stripped text; in
    particular no tab, line feed, carriage return or blank. *)
Lemma strip_ends (l : str) (c : N) (t : str) :
  strip l = c :: t ∨ strip l = t ++ [c] →
  isspace c = false ∧ (c ∉ [9; LF; 13; 32]).
Proof.
  destruct (strip_spec l) as (a & b & _ & _ & _ & Hh & Ht).
  intros Hc.
  assert (isspace c = false) as Hsp
    by (destruct Hc as [Hc|Hc]; [by eapply Hh | by eapply Ht]).
  split; [done|]. intros Hin.
  repeat (apply elem_of_cons in Hin as [->|Hin]; [discriminate Hsp|]).
  by apply not_elem_of_nil in Hin.
Qed.

(** C9: for every call of the [interactive_feedback] tool, the
    project directory and the summary are each cut at their first
    line feed and stripped of surrounding white space before the
    feedback UI is launched: what the UI receives is the first line
    without a run of white space at its start and one at its end, and
    it neither begins nor ends with white space (in particular with a
    tab, a line feed, a carriage return or a blank); what follows the
    first line feed in either argument has no influence on the
    launch. *)
Theorem interactive_feedback_first_line (project_directory summary : str)
    (modified_files : option (list str)) :
  ∃ l1 l2 : str,
    (LF ∉ l1)
    ∧ (project_directory = l1 ∨ ∃ r, project_directory = l1 ++ LF :: r)
    ∧ (LF ∉ l2)
    ∧ (summary = l2 ∨ ∃ r, summary = l2 ++ LF :: r)
    ∧ interactive_feedback glob_md getmtime relpath
        project_directory summary modified_files
      = launch_feedback_ui glob_md getmtime relpath
          (strip l1) (strip l2) modified_files
    ∧ arg_project_directory
        (interactive_feedback glob_md getmtime relpath
           project_directory summary modified_files) = strip l1
    ∧ arg_prompt
        (interactive_feedback glob_md getmtime relpath
           project_directory summary modified_files) = strip l2
    ∧ (∀ line received : str,
         (line = l1
          ∧ received
            = arg_project_directory
                (interactive_feedback glob_md getmtime relpath
                   project_directory summary modified_files))
         ∨ (line = l2
            ∧ received
              = arg_prompt
                  (interactive_feedback glob_md getmtime relpath
                     project_directory summary modified_files)) →
         (∃ a b, line = a ++ received ++ b
                 ∧ forallb isspace a = true ∧ forallb isspace b = true)
         ∧ (LF ∉ received)
         ∧ ∀ c t, received = c :: t ∨ received = t ++ [c] →
             isspace c = false ∧ (c ∉ [9; LF; 13; 32]))
    ∧ ∀ r1 r2,
        interactive_feedback glob_md getmtime relpath
          (l1 ++ LF :: r1) (l2 ++ LF :: r2) modified_files
        = interactive_feedback glob_md getmtime relpath
            project_directory summary modified_files.
Proof.
  destruct (first_line_decompose project_directory) as (l1 & Hl1 & Hp).
  destruct (first_line_decompose summary) as (l2 & Hl2 & Hs).
  assert (first_line project_directory = strip l1) as E1.
  { destruct Hp as [-> | [r ->]];
      [by apply first_line_whole | by apply first_line_app]. }
  assert (first_line summary = strip l2) as E2.
  { destruct Hs as [-> | [r ->]];
      [by apply first_line_whole | by apply first_line_app]. }
  assert (∀ l : str, LF ∉ l →
            (∃ a b, l = a ++ strip l ++ b
                    ∧ forallb isspace a = true ∧ forallb isspace b = true)
            ∧ (LF ∉ strip l)
            ∧ ∀ c t, strip l = c :: t ∨ strip l = t ++ [c] →
                isspace c = false ∧ (c ∉ [9; LF; 13; 32])) as Hstrip.
  { intros l Hl. destruct (strip_spec l) as (a & b & Hab & Ha & Hb & _).
    split; [by exists a, b|]. split; [|apply strip_ends].
    intros Hin. apply Hl. rewrite Hab, !elem_of_app. auto. }
  exists l1, l2. unfold interactive_feedback. rewrite E1, E2.
  split; [done|]. split; [done|]. split; [done|]. split; [done|].
  split; [done|]. split; [done|]. split; [done|]. split.
  - intros line received [[-> ->] | [-> ->]]; by apply Hstrip.
  - intros r1 r2. by rewrite !first_line_app.
Qed.

(** Either every file has a modification time, or [getmtime] raises
    for one of them and no key list is built. *)
Lemma with_mtime_cases (l : list str) :
  (∀ g, g ∈ l → is_Some (getmtime g))
  ∨ (with_mtime getmtime l = None ∧ ∃ g, g ∈ l ∧ getmtime g = None).
Proof.
  induction l as [|f l [IH | [IH (g & Hg & Hn)]]]; simpl.
  - left. intros g Hg. by apply not_elem_of_nil in Hg.
  - destruct (getmtime f) as [t|] eqn:Hf.
    + left. intros g Hg. apply elem_of_cons in Hg as [->|Hg];
        [by rewrite Hf | by apply IH].
    + right. split; [done|]. exists f. split; [left|done].
  - right. rewrite IH. split; [by destruct (getmtime f)|].
    exists g. split; [by right|done].
Qed.

(** C10: for every call of the [interactive_feedback] tool, the
    candidate list handed to the UI is the list supplied by the
    caller (the empty list if none), in its order, and nothing else
    when no [.md] file is found under the project directory or when
    [getmtime] raises for one of the files found; otherwise a most
    recently modified [.md] file is appended at the end, as a path
    relative to the directory, unless [relpath] raises for it, the
    relative path is empty or it is already in the list. *)
Theorem enhance_appends_latest_md (project_directory summary : str)
    (modified_files : option (list str)) :
  let d := first_line project_directory in
  let supplied := default [] modified_files in
  let handed :=
    ui_modified_files
      (interactive_feedback glob_md getmtime relpath
         project_directory summary modified_files) in
  (glob_md d = [] ∧ handed = supplied)
  ∨ ((∃ g, g ∈ glob_md d ∧ getmtime g = None) ∧ handed = supplied)
  ∨ (∃ f t,
       f ∈ glob_md d ∧ getmtime f = Some t
       ∧ (∀ g, g ∈ glob_md d → ∃ tg, getmtime g = Some tg ∧ (tg <= t)%Z)
       ∧ handed = match relpath f d with
                  | Some r =>
                      if bool_decide (r = [] ∨ r ∈ supplied) then supplied
                      else supplied ++ [r]
                  | None => supplied
                  end).
Proof.
  intros d supplied handed.
  assert (handed = enhance_modified_files glob_md getmtime relpath d
                     modified_files) as ->
    by apply ui_modified_files_launch.
  assert (match modified_files with
          | Some (x :: l) => x :: l
          | _ => []
          end = supplied) as Hsup.
  { unfold supplied. by destruct modified_files as [[|]|]. }
  unfold enhance_modified_files. rewrite Hsup.
  destruct (decide (glob_md d = [])) as [Hg|Hg].
  - left. split; [done|].
    unfold find_latest_modified_md_file. by rewrite Hg.
  - right. destruct (with_mtime_cases (glob_md d)) as [Hall | [Hnone Hex]].
    + right.
      destruct (find_latest_modified_md_file_spec d Hg Hall)
        as (f & t & Hf & Ht & Hmax & ->).
      exists f, t. split; [done|]. split; [done|]. split.
      { intros g Hin. destruct (Hall g Hin) as [tg Htg].
        exists tg. split; [done|]. by apply (Hmax g). }
      destruct (relpath f d) as [r|]; [|done].
      destruct r as [|c r].
      { cbn [truthy andb negb].
        by rewrite bool_decide_eq_true_2 by (by left). }
      cbn [truthy andb negb].
      destruct (decide (c :: r ∈ supplied)) as [Hin|Hnin].
      * rewrite (bool_decide_eq_false_2 (c :: r ∉ supplied))
          by (by intros ?).
        by rewrite bool_decide_eq_true_2 by (by right).
      * rewrite (bool_decide_eq_true_2 _ Hnin).
        rewrite bool_decide_eq_false_2; [done|].
        by intros [?|?].
    + left. split; [done|].
      unfold find_latest_modified_md_file. rewrite Hnone.
      by destruct (glob_md d).
Qed.

End FileSystem.
End ServerFacts.

(** * Sorting and the iteration order of a set *)

Module SortedFacts.
Import FeedbackUI.

Lemma leb_total (a b : str) : Str.leb a b = true ∨ Str.leb b a = true.
Proof.
  revert b. induction a as [|x a IH]; intros [|y b]; simpl; auto.
  destruct (N.ltb_spec x y), (N.ltb_spec y x), (N.eqb_spec x y),
    (N.eqb_spec y x); simpl; auto; try lia.
Qed.

Lemma leb_trans (a b c : str) :
  Str.leb a b = true → Str.leb b c = true → Str.leb a c = true.
Proof.
  revert b c. induction a as [|x a IH]; intros [|y b] [|z c]; simpl; auto;
    try discriminate.
  destruct (N.ltb_spec x y), (N.ltb_spec y z), (N.ltb_spec x z),
    (N.eqb_spec x y), (N.eqb_spec y z), (N.eqb_spec x z);
    simpl; auto; try lia; try discriminate.
  apply IH.
Qed.

Lemma leb_antisym (a b : str) :
  Str.leb a b = true → Str.leb b a = true → a = b.
Proof.
  revert b. induction a as [|x a IH]; intros [|y b]; simpl; auto;
    try discriminate.
  destruct (N.ltb_spec x y), (N.ltb_spec y x), (N.eqb_spec x y),
    (N.eqb_spec y x); simpl; try lia; try discriminate.
  intros Hab Hba. subst. f_equal. by apply IH.
Qed.

Lemma insert_sorted_perm (x : str) (l : list str) :
  insert_sorted x l ≡ₚ x :: l.
Proof.
  induction l as [|y l IH]; simpl; [done|].
  destruct (Str.leb x y); [done|]. rewrite IH. apply Permutation_swap.
Qed.

Lemma sorted_perm (l : list str) : sorted l ≡ₚ l.
Proof.
  induction l as [|x l IH]; [done|].
  change (sorted (x :: l)) with (insert_sorted x (sorted l)).
  by rewrite insert_sorted_perm, IH.
Qed.

Lemma insert_sorted_strongly (x : str) (l : list str) :
  StronglySorted le l → StronglySorted le (insert_sorted x l).
Proof.
  induction 1 as [|y l Hl IH Hy]; simpl.
  - repeat constructor.
  - destruct (Str.leb x y) eqn:E.
    + constructor; [by constructor|]. constructor; [done|].
      eapply Forall_impl; [exact Hy|]. intros z Hz. by eapply leb_trans.
    + constructor; [done|]. rewrite insert_sorted_perm.
      constructor; [|done]. destruct (leb_total x y); [congruence|done].
Qed.

Lemma sorted_strongly (l : list str) : StronglySorted le (sorted l).
Proof.
  induction l as [|x l IH]; [constructor|].
  change (sorted (x :: l)) with (insert_sorted x (sorted l)).
  by apply insert_sorted_strongly.
Qed.

(** [sorted] does not depend on the order of its argument. *)
Lemma sorted_of_permutation (l1 l2 : list str) :
  l1 ≡ₚ l2 → sorted l1 = sorted l2.
Proof.
  intros Hp.
  apply (StronglySorted_unique_strong le); try apply sorted_strongly.
  - intros a b _ _. apply leb_antisym.
  - by rewrite !sorted_perm.
Qed.

(** Two iteration orders of one set are sorted to the same list. *)
Lemma sorted_iteration (s : gset str) (order1 order2 : list str) :
  set_iteration s order1 → set_iteration s order2 →
  sorted order1 = sorted order2.
Proof.
  intros [Hn1 H1] [Hn2 H2]. apply sorted_of_permutation.
  apply NoDup_Permutation; [done|done|]. intros x.
  by rewrite <- (elem_of_list_to_set (C := gset str)), H1, <- H2,
    elem_of_list_to_set.
Qed.

End SortedFacts.

(** * Facts about feedback_ui.py *)

Module KillTreeFacts.
Section WithHost.
Context {W : Type} `{Host W}.

Lemma kill_children_ok (procs killed : list N) (w : W) :
  ∃ killed' w', kill_children procs killed w = (Ok killed', w').
Proof.
  revert killed w. induction procs as [|p procs IH]; intros killed w; simpl.
  - by exists killed, w.
  - destruct (Process_kill p w) as [[?|?] w']; apply IH.
Qed.

Lemma terminate_remaining_ok (killed : list N) (w : W) :
  ∃ w', terminate_remaining killed w = (Ok tt, w').
Proof.
  revert w. induction killed as [|p killed IH]; intros w; simpl.
  - by exists w.
  - destruct (Process_is_running p w) as [[|]|]; apply IH.
Qed.

(** Once the root process is found and its children are listed,
    nothing raised by the signalling escapes. *)
Lemma kill_tree_ok (process parent : N) (procs : list N) (w : W) :
  psutil_Process process w = Ok parent →
  Process_children parent w = Ok procs →
  ∃ w', kill_tree process w = (Ok tt, w').
Proof.
  intros Hp Hc. unfold kill_tree, bind, query. rewrite Hp, Hc.
  destruct (kill_children_ok procs [] w) as (killed & w1 & ->).
  unfold kill_parent. apply terminate_remaining_ok.
Qed.

(** The error of [psutil.Process] escapes, before any signal is
    sent. *)
Lemma kill_tree_root_gone (process : N) (e : psutil_Error) (w : W) :
  psutil_Process process w = Raise e →
  kill_tree process w = (Raise (PsutilError e), w).
Proof. intros Hp. unfold kill_tree, bind, query. by rewrite Hp. Qed.

(** So does the error of [children]. *)
Lemma kill_tree_children_raise (process parent : N) (e : psutil_Error)
    (w : W) :
  psutil_Process process w = Ok parent →
  Process_children parent w = Raise e →
  kill_tree process w = (Raise (PsutilError e), w).
Proof.
  intros Hp Hc. unfold kill_tree, bind, query. by rewrite Hp, Hc.
Qed.

End WithHost.

Import Examples.

(** C5: on a root process that the system no longer knows,
    [kill_tree] raises [psutil.NoSuchProcess]: the call
    [psutil.Process(process.pid)] is outside every [try]. *)
Theorem kill_tree_raises_on_exited_root :
  SimpleHost.known 4242 quiet_world = false
  ∧ kill_tree 4242 quiet_world
    = (Raise (PsutilError (NoSuchProcess 4242)), quiet_world).
Proof. split; reflexivity. Qed.

(** On a live tree the terminator returns and leaves none of the
    three processes. *)
Example kill_tree_live_tree :
  ∃ w', kill_tree 10 busy_world = (Ok tt, w') ∧ SimpleHost.procs w' = [].
Proof. eexists. split; reflexivity. Qed.

End KillTreeFacts.

Module FeedbackUIFacts.

Lemma truthy_app_l (a b : str) : truthy a = true → truthy (a ++ b) = true.
Proof. by destruct a. Qed.

Lemma truthy_false (a : str) : truthy a = false ↔ a = [].
Proof. by destruct a. Qed.

Lemma truthy_true (a : str) : truthy a = true ↔ a ≠ [].
Proof. by destruct a. Qed.

Lemma insert_sorted_elem (x y : str) (l : list str) :
  y ∈ insert_sorted x l ↔ y = x ∨ y ∈ l.
Proof.
  induction l as [|z l IH]; simpl.
  - rewrite list_elem_of_singleton. split; [by left|].
    intros [?|Hin]; [done|]. by apply not_elem_of_nil in Hin.
  - destruct (Str.leb x z).
    + by rewrite elem_of_cons.
    + rewrite !elem_of_cons, IH. tauto.
Qed.

Lemma sorted_elem (y : str) (l : list str) : y ∈ sorted l ↔ y ∈ l.
Proof.
  induction l as [|x l IH]; [done|].
  change (sorted (x :: l)) with (insert_sorted x (sorted l)).
  by rewrite insert_sorted_elem, IH, elem_of_cons.
Qed.

(** A piece of a joined text occurs in it. *)
Lemma join_elem (sep p : str) (parts : list str) :
  p ∈ parts → ∃ a b, join sep parts = a ++ p ++ b.
Proof.
  induction parts as [|q parts IH]; intros Hin.
  - by apply not_elem_of_nil in Hin.
  - apply elem_of_cons in Hin as [->|Hin].
    + destruct parts as [|q' parts'].
      * exists [], []. simpl. by rewrite app_nil_r.
      * exists [], (sep ++ join sep (q' :: parts')). done.
    + destruct (IH Hin) as (a & b & Hab).
      destruct parts as [|q' parts']; [by apply not_elem_of_nil in Hin|].
      exists (q ++ sep ++ a), b.
      change (join sep (q :: q' :: parts'))
        with (q ++ sep ++ join sep (q' :: parts')).
      rewrite Hab. by rewrite <- !app_assoc.
Qed.

Section WithHost.
Context {W : Type} `{Host W}.
Import FeedbackUI.

Lemma selected_rules_elem (self : t) (line : str) :
  line ∈ _get_selected_rules self ↔
  ∃ key cb, (key, cb) ∈ rules_checkboxes self ∧ isChecked cb = true
            ∧ line = py "- " ++ rule_label cb.
Proof.
  unfold _get_selected_rules. generalize (rules_checkboxes self).
  intros l. induction l as [|[k c] l IH]; simpl.
  - split; [intros Hin; by apply not_elem_of_nil in Hin|].
    intros (key & cb & Hin & _). by apply not_elem_of_nil in Hin.
  - rewrite elem_of_app, IH. split.
    + intros [Hin | (key & cb & Hin & Hc & ->)].
      * destruct (isChecked c) eqn:Hc;
          [|by apply not_elem_of_nil in Hin].
        apply list_elem_of_singleton in Hin as ->.
        exists k, c. split; [left|done].
      * exists key, cb. split; [by right|done].
    + intros (key & cb & Hin & Hc & ->).
      apply elem_of_cons in Hin as [[= -> ->]|Hin].
      * left. rewrite Hc. left.
      * right. by exists key, cb.
Qed.

Lemma selected_rules_nonempty (self : t) :
  _get_selected_rules self ≠ [] ↔ some_rule_enabled self.
Proof.
  split.
  - destruct (_get_selected_rules self) as [|line rest] eqn:E; [done|].
    intros _. destruct (proj1 (selected_rules_elem self line))
      as (key & cb & Hin & Hc & _); [rewrite E; left|].
    by exists key, cb.
  - intros (key & cb & Hin & Hc) E.
    assert (py "- " ++ rule_label cb ∈ _get_selected_rules self) as Hl.
    { apply selected_rules_elem. by exists key, cb. }
    rewrite E in Hl. by apply not_elem_of_nil in Hl.
Qed.

(** The files section: absent exactly for an empty selection, and
    never an empty text. *)
Lemma files_content_none (w : W) (self : t) (order : list str) :
  selected_files self = ∅ →
  _get_selected_files_content w self order = None.
Proof.
  intros He. unfold _get_selected_files_content.
  by rewrite bool_decide_eq_true_2.
Qed.

Lemma files_content_some (w : W) (self : t) (order : list str) :
  selected_files self ≠ ∅ →
  ∃ c, _get_selected_files_content w self order = Some c
       ∧ c = join [LF] ([py "## Files Modified by User:"; []]
                          ++ flat_map (file_block w self) (sorted order))
       ∧ truthy c = true.
Proof.
  intros Hne. unfold _get_selected_files_content.
  rewrite bool_decide_eq_false_2 by done.
  eexists. split; [done|]. split; [done|].
  by apply truthy_app_l.
Qed.


Lemma file_content_in_section (w : W) (self : t) (order : list str)
    (f content : str) :
  f ∈ order →
  os_path_exists (os_path_join (project_directory self) f) w = true →
  read_text (os_path_join (project_directory self) f) w = Ok content →
  ∃ a b,
    join [LF] ([py "## Files Modified by User:"; []]
                 ++ flat_map (file_block w self) (sorted order))
    = a ++ content ++ b.
Proof.
  intros Hf He Hr. apply join_elem.
  apply elem_of_app. right. apply list_elem_of_In, in_flat_map.
  exists f. split; [by apply list_elem_of_In, sorted_elem|].
  unfold file_block. rewrite He, Hr. simpl. tauto.
Qed.

Lemma rule_text_in_section (self : t) (key : str) (cb : QCheckBox) :
  (key, cb) ∈ rules_checkboxes self → isChecked cb = true →
  ∃ a b, rules_section (_get_selected_rules self)
         = a ++ rule_label cb ++ b.
Proof.
  intros Hin Hc.
  destruct (join_elem [LF] (py "- " ++ rule_label cb)
              (_get_selected_rules self)) as (a & b & Hab).
  { apply selected_rules_elem. by exists key, cb. }
  exists (py "## Additional Rules to Apply:" ++ [LF] ++ a ++ py "- "), b.
  unfold rules_section. rewrite Hab. by rewrite <- !app_assoc.
Qed.

(** The document in each of the eight combinations of free text,
    rules and files. *)
Lemma submit_feedback_result (w : W) (self : t) (order : list str) :
  ∃ r,
    feedback_result (_submit_feedback w self order) = Some r
    ∧ FeedbackResult.command_logs r = concat (log_buffer self)
    ∧ FeedbackResult.selected_files r = order
    ∧ FeedbackResult.modified_files_content r
      = _get_selected_files_content w self order
    ∧ FeedbackResult.interactive_feedback r
      = let text := strip (feedback_text self) in
        let with_rules :=
          match _get_selected_rules self with
          | [] => text
          | _ :: _ =>
              if truthy text
              then rules_section (_get_selected_rules self)
                     ++ [LF; LF] ++ text
              else rules_section (_get_selected_rules self)
          end in
        match _get_selected_files_content w self order with
        | Some content =>
            if truthy with_rules
            then content ++ [LF; LF] ++ heading ++ [LF] ++ with_rules
            else content
        | None => with_rules
        end.
Proof.
  eexists. split; [reflexivity|].
  split; [done|]. split; [done|]. split; [done|].
  cbn [FeedbackResult.interactive_feedback].
  destruct (decide (selected_files self = ∅)) as [He|Hne].
  - by rewrite (files_content_none w self order He).
  - destruct (files_content_some w self order Hne) as (c & -> & _ & ->).
    done.
Qed.


(** The document, the files section and the logs of the result do not
    depend on the order in which the selection is iterated; only the
    [selected_files] sequence does. *)
Lemma submit_feedback_order_independent (w : W) (self : t)
    (order1 order2 : list str) :
  set_iteration (selected_files self) order1 →
  set_iteration (selected_files self) order2 →
  ∃ r1 r2,
    feedback_result (_submit_feedback w self order1) = Some r1
    ∧ feedback_result (_submit_feedback w self order2) = Some r2
    ∧ FeedbackResult.interactive_feedback r1
      = FeedbackResult.interactive_feedback r2
    ∧ FeedbackResult.modified_files_content r1
      = FeedbackResult.modified_files_content r2
    ∧ FeedbackResult.command_logs r1 = FeedbackResult.command_logs r2.
Proof.
  intros H1 H2.
  pose proof (SortedFacts.sorted_iteration _ _ _ H1 H2) as Hs.
  destruct (submit_feedback_result w self order1)
    as (r1 & Hr1 & Hl1 & _ & Hf1 & Hd1).
  destruct (submit_feedback_result w self order2)
    as (r2 & Hr2 & Hl2 & _ & Hf2 & Hd2).
  assert (_get_selected_files_content w self order1
          = _get_selected_files_content w self order2) as E.
  { unfold _get_selected_files_content. by rewrite Hs. }
  exists r1, r2. rewrite Hd1, Hd2, Hf1, Hf2, Hl1, Hl2, E. by repeat split.
Qed.

(** C1 (amended): for every session with at least one enabled rule,
    at least one selected file and non-empty free text, the document
    is the files section, a blank line, the [## User Feedback:]
    heading, the rules section, a blank line and the free text: the
    content of every selected file that could be read comes before
    the text of every enabled rule, which comes before the free
    text. *)
Theorem compose_files_rules_text (w : W) (self : t) (order : list str) :
  set_iteration (selected_files self) order →
  some_rule_enabled self →
  selected_files self ≠ ∅ →
  strip (feedback_text self) ≠ [] →
  ∃ r files_section,
    feedback_result (_submit_feedback w self order) = Some r
    ∧ FeedbackResult.modified_files_content r = Some files_section
    ∧ FeedbackResult.interactive_feedback r
      = files_section ++ [LF; LF] ++ heading ++ [LF]
          ++ rules_section (_get_selected_rules self)
          ++ [LF; LF] ++ strip (feedback_text self)
    ∧ ∀ f content key cb,
        f ∈ selected_files self →
        os_path_exists (os_path_join (project_directory self) f) w = true →
        read_text (os_path_join (project_directory self) f) w
          = Ok content →
        (key, cb) ∈ rules_checkboxes self → isChecked cb = true →
        ∃ p m q,
          FeedbackResult.interactive_feedback r
          = p ++ content ++ m ++ rule_label cb ++ q
              ++ strip (feedback_text self).
Proof.
  intros [_ Hord] Hrule Hsel Htext.
  assert (∀ x, x ∈ selected_files self → x ∈ order) as Hmem.
  { intros x. rewrite <- Hord. apply elem_of_list_to_set. }
  destruct (submit_feedback_result w self order)
    as (r & Hr & _ & _ & Hfiles & Hdoc).
  destruct (files_content_some w self order Hsel) as (c & Hc & Hceq & _).
  rewrite Hc in Hfiles, Hdoc.
  apply selected_rules_nonempty in Hrule as Hlines.
  destruct (_get_selected_rules self) as [|line lines] eqn:Hl; [done|].
  apply truthy_true in Htext as Ht. cbv zeta in Hdoc.
  rewrite Ht in Hdoc.
  rewrite truthy_app_l in Hdoc by done.
  exists r, c. split; [done|]. split; [done|].
  split; [by rewrite Hdoc|].
  intros f content key cb Hf He Hread Hin Hchk.
  destruct (file_content_in_section w self order f content)
    as (a & b & Hab); [by apply Hmem|done|done|].
  destruct (rule_text_in_section self key cb Hin Hchk) as (a' & b' & Hab').
  rewrite Hl in Hab'. rewrite Hdoc, Hab', Hceq, Hab.
  exists a, (b ++ [LF; LF] ++ heading ++ [LF] ++ a'), (b' ++ [LF; LF]).
  by rewrite <- !app_assoc.
Qed.

(** C2 (amended): for every session, the [selected_files] sequence of
    the result is the selected-file set in the iteration order of the
    set: each selected path once and no other path, in an order that
    is not the lexical one unless the set happens to iterate so. *)
Theorem selected_files_snapshot (w : W) (self : t) (order : list str) :
  set_iteration (selected_files self) order →
  ∃ r,
    feedback_result (_submit_feedback w self order) = Some r
    ∧ FeedbackResult.selected_files r = order
    ∧ NoDup (FeedbackResult.selected_files r)
    ∧ (∀ x, x ∈ FeedbackResult.selected_files r ↔ x ∈ selected_files self)
    ∧ (FeedbackResult.selected_files r
         = sorted (FeedbackResult.selected_files r)
       ↔ order = sorted order).
Proof.
  intros [Hnd Hord].
  destruct (submit_feedback_result w self order)
    as (r & Hr & _ & Hsel & _).
  exists r. rewrite Hsel.
  split; [done|]. split; [done|]. split; [done|].
  split; [|done]. intros x. rewrite <- Hord. by rewrite elem_of_list_to_set.
Qed.

(** C3 (amended): for every session submitted with empty or
    white-space free text, the document is the rules section alone
    when no file is selected, the files section alone when no rule
    is enabled, and in neither case is a [## User Feedback:] heading
    added (the rules section contains none); when both sections
    exist, the document is the files section, a blank line, the
    heading and the rules section. *)
Theorem empty_text_document (w : W) (self : t) (order : list str) :
  rules_as_configured self →
  strip (feedback_text self) = [] →
  ∃ r,
    feedback_result (_submit_feedback w self order) = Some r
    ∧ (selected_files self = ∅ → some_rule_enabled self →
         FeedbackResult.interactive_feedback r
         = rules_section (_get_selected_rules self)
         ∧ ¬ ∃ p q, FeedbackResult.interactive_feedback r
                    = p ++ heading ++ q)
    ∧ (selected_files self ≠ ∅ → ¬ some_rule_enabled self →
         Some (FeedbackResult.interactive_feedback r)
         = FeedbackResult.modified_files_content r)
    ∧ (selected_files self ≠ ∅ → some_rule_enabled self →
         ∃ files_section,
           FeedbackResult.modified_files_content r = Some files_section
           ∧ FeedbackResult.interactive_feedback r
             = files_section ++ [LF; LF] ++ heading ++ [LF]
                 ++ rules_section (_get_selected_rules self)).
Proof.
  intros Hcfg Htext.
  destruct (submit_feedback_result w self order)
    as (r & Hr & _ & _ & Hfiles & Hdoc).
  cbv zeta in Hdoc. rewrite Htext in Hdoc.
  change (truthy []) with false in Hdoc.
  exists r. split; [done|]. split; [|split].
  - intros He Hrule.
    rewrite (files_content_none w self order He) in Hdoc.
    apply selected_rules_nonempty in Hrule as Hlines.
    destruct (_get_selected_rules self) as [|line lines] eqn:Hl; [done|].
    split; [done|]. rewrite Hdoc. intros Hc. apply contains_spec in Hc.
    revert Hc Hl. unfold _get_selected_rules.
    unfold rules_as_configured in Hcfg.
    destruct (rules_checkboxes self) as [|[k1 [l1 c1 i1]] [|[k2 [l2 c2 i2]] [|? ?]]];
      try discriminate Hcfg.
    injection Hcfg as -> -> -> ->.
    destruct c1, c2; simpl; intros Hc Hl; try discriminate Hl;
      injection Hl as <- <-; vm_compute in Hc; discriminate Hc.
  - intros Hne Hrule.
    destruct (files_content_some w self order Hne) as (c & Hc & _ & Ht).
    rewrite Hc in Hdoc, Hfiles. rewrite Hfiles, Hdoc.
    destruct (_get_selected_rules self) as [|line lines] eqn:Hl; [done|].
    exfalso. apply Hrule, selected_rules_nonempty. by rewrite Hl.
  - intros Hne Hrule.
    destruct (files_content_some w self order Hne) as (c & Hc & _ & Ht).
    rewrite Hc in Hdoc, Hfiles. exists c. split; [done|].
    apply selected_rules_nonempty in Hrule as Hlines.
    destruct (_get_selected_rules self) as [|line lines] eqn:Hl; [done|].
    cbv iota in Hdoc. unfold rules_section at 1 in Hdoc.
    by rewrite truthy_app_l in Hdoc.
Qed.

End WithHost.
End FeedbackUIFacts.

(** * Facts about the session *)

Module SessionFacts.
Import FeedbackUI KillTreeFacts FeedbackUIFacts.

(** The suffix test of the default selection, on the characters of the
    path: a dot, then [m] or [M], then [d] or [D]. *)
Lemma default_checked_spec (p : str) :
  default_checked p = true ↔
  ∃ q c1 c2, p = q ++ [46; c1; c2]
             ∧ (c1 = 109 ∨ c1 = 77) ∧ (c2 = 100 ∨ c2 = 68).
Proof.
  unfold default_checked. rewrite endswith_spec. unfold lower. split.
  - intros [q' Hq].
    change (py ".md") with [46; 109; 100] in Hq.
    apply (fmap_app_inv lower_char) in Hq as (q & t & -> & Ht & ->).
    destruct t as [|a [|b [|c [|? ?]]]]; try discriminate Ht.
    injection Ht as Ha Hb Hc. exists q, b, c.
    unfold lower_char in *.
    assert (a = 46) as ->.
    { destruct ((65 <=? a) && (a <=? 90)) eqn:E; [|done].
      apply andb_true_iff in E as [?%N.leb_le ?%N.leb_le]. lia. }
    split; [done|]. split.
    + destruct ((65 <=? b) && (b <=? 90)) eqn:E; [right; lia|by left].
    + destruct ((65 <=? c) && (c <=? 90)) eqn:E; [right; lia|by left].
  - intros (q & c1 & c2 & -> & H1 & H2).
    exists (List.map lower_char q). rewrite List.map_app. f_equal.
    destruct H1 as [-> | ->], H2 as [-> | ->]; reflexivity.
Qed.

Lemma add_candidate_selected (self : t) (f : str) :
  selected_files (add_candidate self f)
  = selected_files self ∪ (if default_checked f then {[ f ]} else ∅).
Proof.
  unfold add_candidate, default_checked.
  destruct (endswith (lower f) (py ".md")); simpl; [done|].
  by rewrite (right_id_L ∅ (∪)).
Qed.

Lemma create_file_changes_selected (self : t) :
  selected_files (_create_file_changes_section self)
  = selected_files self
    ∪ list_to_set (List.filter default_checked (modified_files self)).
Proof.
  unfold _create_file_changes_section.
  assert (selected_files (set_file_list (Some []) self) = selected_files self)
    as <- by done.
  generalize (set_file_list (Some []) self). generalize (modified_files self).
  intros l. induction l as [|f l IH]; intros s; simpl.
  - by rewrite (right_id_L ∅ (∪)).
  - rewrite IH, add_candidate_selected.
    destruct (default_checked f); simpl.
    + by rewrite (assoc_L (∪)).
    + by rewrite (right_id_L ∅ (∪)).
Qed.

Lemma add_candidate_frame (self : t) (f : str) :
  same_but_files (add_candidate self f) self.
Proof.
  unfold add_candidate, same_but_files.
  by destruct (endswith (lower f) (py ".md")).
Qed.

Lemma same_but_files_trans (a b c : t) :
  same_but_files a b → same_but_files b c → same_but_files a c.
Proof.
  unfold same_but_files. intros Hab Hbc.
  repeat match goal with H : _ ∧ _ |- _ => destruct H as [? H] end.
  repeat split; congruence.
Qed.

Lemma create_file_changes_frame (self : t) :
  same_but_files (_create_file_changes_section self) self.
Proof.
  unfold _create_file_changes_section.
  assert (∀ l s, same_but_files (foldl add_candidate s l) s) as Hfold.
  { induction l as [|f l IH]; intros s; simpl; [by repeat split|].
    eapply same_but_files_trans; [apply IH | apply add_candidate_frame]. }
  eapply same_but_files_trans; [apply Hfold | by repeat split].
Qed.

(** What [_create_rules_section] builds: one check box per configured
    rule, in the order of [rules_config], every one of them checked;
    the stored state only goes to [_initial_state]. *)
Lemma create_rules_section_spec (self : t) :
  rules_checkboxes (_create_rules_section self)
  = List.map
      (fun rule : str * str =>
         (fst rule,
          {| rule_label := snd rule;
             isChecked := true;
             _initial_state :=
               QSettings.value_bool (settings self) (project_group_name self)
                 (py "rule_" ++ fst rule) true |}))
      rules_config.
Proof.
  unfold _create_rules_section, rules_config.
  cbn [foldl List.map fst snd]. unfold add_rule.
  cbn [rules_checkboxes set_rules_checkboxes settings project_group_name
       dict_set].
  by rewrite decide_False by (by vm_compute).
Qed.

(** The state that [_create_ui] builds. *)
Lemma create_ui_spec (self : t) :
  selected_files (_create_ui self)
  = selected_files self
    ∪ list_to_set (List.filter default_checked (modified_files self))
  ∧ rules_checkboxes (_create_ui self)
    = List.map
        (fun rule : str * str =>
           (fst rule,
            {| rule_label := snd rule;
               isChecked := true;
               _initial_state :=
                 QSettings.value_bool (settings self)
                   (project_group_name self)
                   (py "rule_" ++ fst rule) true |}))
        rules_config
  ∧ modified_files (_create_ui self) = modified_files self
  ∧ process (_create_ui self) = process self
  ∧ feedback_result (_create_ui self) = feedback_result self
  ∧ config (_create_ui self) = config self.
Proof.
  unfold _create_ui. rewrite create_rules_section_spec.
  destruct (modified_files self) as [|f l] eqn:Hl.
  - simpl. by rewrite (right_id_L ∅ (∪)).
  - destruct (create_file_changes_frame self)
      as (_ & _ & Hm & Hp & _ & Hr & Hs & Hg & Hc & _).
    rewrite Hs, Hg.
    change (selected_files (_create_rules_section ?s))
      with (selected_files s).
    change (modified_files (_create_rules_section ?s))
      with (modified_files s).
    change (process (_create_rules_section ?s)) with (process s).
    change (feedback_result (_create_rules_section ?s))
      with (feedback_result s).
    change (config (_create_rules_section ?s)) with (config s).
    by rewrite create_file_changes_selected, Hm, Hp, Hr, Hc, Hl.
Qed.

Section WithHost.
Context {W : Type} `{Host W}.

(** Starting a command when none runs never raises and leaves the
    selection, the rules and the result alone. *)
Lemma run_command_idle (w : W) (self : t) :
  process self = None →
  ∃ self' w',
    _run_command self w = (Ok self', w')
    ∧ selected_files self' = selected_files self
    ∧ modified_files self' = modified_files self
    ∧ rules_checkboxes self' = rules_checkboxes self
    ∧ feedback_result self' = feedback_result self.
Proof.
  intros Hp. unfold _run_command. rewrite Hp.
  destruct (truthy (command_entry (set_log_buffer [] self)));
    cbn [negb].
  - cbv beta.
    match goal with
    | |- context [Popen ?c ?d w] =>
        destruct (Popen c d w) as [[pid|msg] w']
    end; by eexists _, _.
  - by eexists _, _.
Qed.

(** The session as constructed. *)
Lemma init_spec (w : W) (project_directory prompt : str)
    (modified_files : option (list str)) (settings : QSettings.t) :
  ∃ self w',
    init project_directory prompt modified_files settings w = (Ok self, w')
    ∧ FeedbackUI.modified_files self = default [] modified_files
    ∧ selected_files self
      = list_to_set
          (List.filter default_checked (default [] modified_files))
    ∧ rules_checkboxes self
      = List.map
          (fun rule : str * str =>
             (fst rule,
              {| rule_label := snd rule;
                 isChecked := true;
                 _initial_state :=
                   QSettings.value_bool settings
                     (get_project_settings_group project_directory)
                     (py "rule_" ++ fst rule) true |}))
          rules_config
    ∧ feedback_result self = None.
Proof.
  unfold init.
  match goal with
  | |- context [_create_ui ?s] =>
      destruct (create_ui_spec s) as (Hs & Hr & Hm & Hp & Hf & _);
      set (self1 := _create_ui s) in *
  end.
  cbn [selected_files FeedbackUI.modified_files process feedback_result
       FeedbackUI.settings project_group_name] in Hs, Hr, Hm, Hp, Hf.
  rewrite (left_id_L ∅ (∪)) in Hs.
  destruct (execute_automatically (config self1)).
  - destruct (run_command_idle w self1 Hp)
      as (self' & w' & -> & E1 & E2 & E3 & E4).
    exists self', w'. by rewrite E1, E2, E3, E4.
  - by exists self1, w.
Qed.

(** After construction every configured rule is enabled, whatever
    the store holds, and the check boxes are those of
    [rules_config]. *)
Lemma rules_after_construction (w : W) (project_directory prompt : str)
    (modified_files : option (list str)) (settings : QSettings.t) :
  ∃ self w',
    init project_directory prompt modified_files settings w = (Ok self, w')
    ∧ rules_as_configured self
    ∧ ∀ key cb, (key, cb) ∈ rules_checkboxes self → isChecked cb = true.
Proof.
  destruct (init_spec w project_directory prompt modified_files settings)
    as (self & w' & Hi & _ & _ & Hr & _).
  exists self, w'. split; [done|]. unfold rules_as_configured.
  rewrite Hr. split; [done|]. intros key cb Hin.
  apply list_elem_of_In, in_map_iff in Hin as (rule & [= _ <-] & _). done.
Qed.

(** C7 (amended): for every candidate file list, the set of selected
    files immediately after construction is exactly the set of
    candidate paths whose lower-cased form ends in [.md]: the paths
    that end in a dot, [m] or [M], and [d] or [D]. *)
Theorem selected_after_construction (w : W)
    (project_directory prompt : str)
    (modified_files : option (list str)) (settings : QSettings.t) :
  ∃ self w',
    init project_directory prompt modified_files settings w = (Ok self, w')
    ∧ ∀ p, p ∈ selected_files self ↔
        p ∈ default [] modified_files
        ∧ endswith (lower p) (py ".md") = true
        ∧ ∃ q c1 c2, p = q ++ [46; c1; c2]
                     ∧ (c1 = 109 ∨ c1 = 77) ∧ (c2 = 100 ∨ c2 = 68).
Proof.
  destruct (init_spec w project_directory prompt modified_files settings)
    as (self & w' & Hi & _ & Hs & _).
  exists self, w'. split; [done|]. intros p. rewrite Hs.
  rewrite elem_of_list_to_set, list_elem_of_In, filter_In.
  rewrite <- list_elem_of_In. fold (default_checked p).
  pose proof (default_checked_spec p). tauto.
Qed.

(** C8 (amended): when the run handler is called with an empty
    command while no process runs, no process is launched and the
    host is left as it was, but the log buffer is cleared first: it
    then holds the message [Please enter a command to run] and
    nothing of what it held before; the console keeps its lines and
    gains the message. *)
Theorem run_command_empty (w : W) (self : t) :
  process self = None →
  command_entry self = [] →
  ∃ self',
    _run_command self w = (Ok self', w)
    ∧ self' = _append_log (py "Please enter a command to run" ++ [LF])
                (set_log_buffer [] self)
    ∧ process self' = None
    ∧ log_buffer self' = [py "Please enter a command to run" ++ [LF]]
    ∧ log_text self' = log_text self ++ [py "Please enter a command to run"].
Proof.
  intros Hp Hc. unfold _run_command. rewrite Hp.
  change (command_entry (set_log_buffer [] self)) with (command_entry self).
  rewrite Hc. eexists. split; [reflexivity|]. by repeat split.
Qed.

(** When the window closes without a submission and the terminator
    returns (in particular when no process is attached), [run]
    returns the logs and nothing else. *)
Lemma run_without_submit (w : W) (self : t) :
  feedback_result self = None →
  (process self = None
   ∨ ∃ p w1, process self = Some p ∧ kill_tree p w = (Ok tt, w1)) →
  ∃ w',
    run self w
    = (Ok {| FeedbackResult.command_logs := concat (log_buffer self);
             FeedbackResult.interactive_feedback := [];
             FeedbackResult.modified_files_content := None;
             FeedbackResult.selected_files := [] |}, w').
Proof.
  intros Hr Hp. unfold run, bind. rewrite Hr.
  destruct Hp as [-> | (p & w1 & -> & ->)]; by eexists.
Qed.

End WithHost.

Import Examples.

(** C4: with a stored choice "off" for the rule [single_operation],
    the constructed window still has that rule enabled; the stored
    value only reaches [_initial_state]. *)
Theorem persisted_rule_choice_not_applied :
  QSettings.value_bool stored_off
    (get_project_settings_group (W := SimpleHost.world) project)
    (py "rule_single_operation") true = false
  ∧ ∃ self w',
      init project (py "Done.") None stored_off quiet_world = (Ok self, w')
      ∧ isChecked <$> dict_get (py "single_operation") (rules_checkboxes self)
        = Some true
      ∧ _initial_state
          <$> dict_get (py "single_operation") (rules_checkboxes self)
        = Some false.
Proof.
  split; [by vm_compute|].
  destruct (init_spec quiet_world project (py "Done.") None stored_off)
    as (self & w' & Hi & _ & _ & Hr & _).
  exists self, w'. split; [done|]. rewrite Hr. split; by vm_compute.
Qed.

(** C6: a window closed without a submission while it still holds the
    handle of a process that the system no longer knows: [run] raises
    the error of the terminator and returns no result. *)
Theorem run_raises_when_child_gone :
  feedback_result session_child_gone = None
  ∧ run session_child_gone quiet_world
    = (Raise (PsutilError (NoSuchProcess 4242)), quiet_world).
Proof. split; reflexivity. Qed.

(** The same window without the process handle returns the logs. *)
Example run_logged_session :
  run session_logged quiet_world
  = (Ok {| FeedbackResult.command_logs := py "old output" ++ [LF];
           FeedbackResult.interactive_feedback := [];
           FeedbackResult.modified_files_content := None;
           FeedbackResult.selected_files := [] |}, quiet_world).
Proof. reflexivity. Qed.

End SessionFacts.

(** * The theorems on concrete sessions *)

Module FeedbackUIChecks.
Import FeedbackUI FeedbackUIFacts Examples.

Lemma session_a_iteration (text : str) :
  set_iteration (selected_files (session_a text)) [py "a.txt"].
Proof. split; [refine (bool_decide_unpack _ _)|]; by vm_compute. Qed.

Lemma session_a_rule (text : str) : some_rule_enabled (session_a text).
Proof. eexists _, _. split; [apply list_elem_of_here | reflexivity]. Qed.

Lemma compose_files_rules_text_witness :
  ∃ r,
    feedback_result
      (_submit_feedback quiet_world (session_a (py "ok")) [py "a.txt"])
    = Some r
    ∧ ∃ p m q,
        FeedbackResult.interactive_feedback r
        = p ++ py "hello" ++ m
            ++ default [] (snd <$> head rules_config) ++ q ++ py "ok".
Proof.
  destruct (compose_files_rules_text quiet_world (session_a (py "ok"))
              [py "a.txt"])
    as (r & files_section & Hr & _ & _ & Hbefore).
  - apply session_a_iteration.
  - apply session_a_rule.
  - by vm_compute.
  - by vm_compute.
  - exists r. split; [exact Hr|].
    apply (Hbefore (py "a.txt") (py "hello") (py "single_operation")
             {| rule_label := default [] (snd <$> head rules_config);
                isChecked := true; _initial_state := true |}).
    + by vm_compute.
    + reflexivity.
    + reflexivity.
    + apply list_elem_of_here.
    + reflexivity.
Defined.

(** C1 as stated does not hold: with the first rule enabled, the file
    [a.txt] (content [hello]) selected and the text [ok], the text of
    the rule does not occur before the content of the file. *)
Lemma rules_not_before_files :
  set_iteration (selected_files (session_a (py "ok"))) [py "a.txt"]
  ∧ some_rule_enabled (session_a (py "ok"))
  ∧ selected_files (session_a (py "ok")) ≠ ∅
  ∧ strip (feedback_text (session_a (py "ok"))) ≠ []
  ∧ read_text (os_path_join project (py "a.txt")) quiet_world
    = Ok (py "hello")
  ∧ ∃ r rule_text,
      feedback_result
        (_submit_feedback quiet_world (session_a (py "ok")) [py "a.txt"])
      = Some r
      ∧ rule_label
          <$> dict_get (py "single_operation")
                (rules_checkboxes (session_a (py "ok")))
        = Some rule_text
      ∧ ¬ ∃ p m q,
            FeedbackResult.interactive_feedback r
            = p ++ rule_text ++ m ++ py "hello" ++ q.
Proof.
  split; [apply session_a_iteration|]. split; [apply session_a_rule|].
  split; [by vm_compute|]. split; [by vm_compute|].
  split; [reflexivity|].
  eexists _, _. split; [reflexivity|]. split; [reflexivity|].
  intros Hc. apply occurs_before_spec in Hc. vm_compute in Hc.
  discriminate Hc.
Qed.

Lemma session_b_iteration :
  set_iteration (selected_files session_b) [py "b.md"; py "a.md"].
Proof. split; [refine (bool_decide_unpack _ _)|]; by vm_compute. Qed.

Lemma selected_files_snapshot_witness :
  ∃ r,
    feedback_result
      (_submit_feedback quiet_world session_b [py "b.md"; py "a.md"])
    = Some r
    ∧ FeedbackResult.selected_files r = [py "b.md"; py "a.md"].
Proof.
  destruct (selected_files_snapshot quiet_world session_b
              [py "b.md"; py "a.md"] session_b_iteration)
    as (r & Hr & Hs & _).
  by exists r.
Defined.

(** C2 as stated does not hold: for the selection [{a.md, b.md}]
    iterated as [b.md, a.md], the sequence of the result is
    [b.md, a.md], which is not the lexical order [a.md, b.md]. *)
Lemma selected_files_not_lexical :
  selected_files session_b ≠ ∅
  ∧ set_iteration (selected_files session_b) [py "b.md"; py "a.md"]
  ∧ ∃ r,
      feedback_result
        (_submit_feedback quiet_world session_b [py "b.md"; py "a.md"])
      = Some r
      ∧ sorted (FeedbackResult.selected_files r) = [py "a.md"; py "b.md"]
      ∧ FeedbackResult.selected_files r
        ≠ sorted (FeedbackResult.selected_files r).
Proof.
  split; [by vm_compute|]. split; [apply session_b_iteration|].
  eexists. split; [reflexivity|]. split; by vm_compute.
Qed.

Lemma session_a_configured (text : str) : rules_as_configured (session_a text).
Proof. reflexivity. Qed.

Lemma empty_text_document_witness :
  ∃ r files_section,
    feedback_result
      (_submit_feedback quiet_world (session_a (py "  ")) [py "a.txt"])
    = Some r
    ∧ FeedbackResult.modified_files_content r = Some files_section
    ∧ FeedbackResult.interactive_feedback r
      = files_section ++ [LF; LF] ++ heading ++ [LF]
          ++ rules_section (_get_selected_rules (session_a (py "  "))).
Proof.
  destruct (empty_text_document quiet_world (session_a (py "  "))
              [py "a.txt"])
    as (r & Hr & _ & _ & Hboth).
  - apply session_a_configured.
  - by vm_compute.
  - destruct Hboth as (files_section & Hf & Hd).
    + by vm_compute.
    + apply session_a_rule.
    + by exists r, files_section.
Defined.

(** C3 as stated does not hold: with white-space free text, one
    enabled rule and one selected file, the document contains the
    [## User Feedback:] heading. *)
Lemma heading_present_with_empty_text :
  strip (feedback_text (session_a (py "  "))) = []
  ∧ some_rule_enabled (session_a (py "  "))
  ∧ selected_files (session_a (py "  ")) ≠ ∅
  ∧ ∃ r,
      feedback_result
        (_submit_feedback quiet_world (session_a (py "  ")) [py "a.txt"])
      = Some r
      ∧ ∃ p q, FeedbackResult.interactive_feedback r = p ++ heading ++ q.
Proof.
  split; [by vm_compute|]. split; [apply session_a_rule|].
  split; [by vm_compute|].
  eexists. split; [reflexivity|]. apply contains_spec. by vm_compute.
Qed.

End FeedbackUIChecks.

Module SessionChecks.
Import FeedbackUI SessionFacts Examples.

(** C7 as stated does not hold: the candidate [README.MD] does not end
    in [.md], yet it is selected after construction. *)
Lemma upper_case_md_selected :
  endswith (py "README.MD") (py ".md") = false
  ∧ ∃ self w',
      init project (py "Done.") (Some [py "README.MD"]) (QSettings.mk ∅ ∅)
        quiet_world = (Ok self, w')
      ∧ py "README.MD" ∈ selected_files self
      ∧ selected_files self
        ≠ list_to_set
            (List.filter (fun p => endswith p (py ".md")) [py "README.MD"]).
Proof.
  split; [reflexivity|].
  destruct (init_spec quiet_world project (py "Done.")
              (Some [py "README.MD"]) (QSettings.mk ∅ ∅))
    as (self & w' & Hi & _ & Hs & _).
  exists self, w'. split; [done|]. rewrite Hs. split; by vm_compute.
Qed.

Lemma run_command_empty_witness :
  ∃ self',
    _run_command session_logged quiet_world = (Ok self', quiet_world)
    ∧ log_buffer self' = [py "Please enter a command to run" ++ [LF]].
Proof.
  destruct (run_command_empty quiet_world session_logged)
    as (self' & Hr & _ & _ & Hl & _).
  - reflexivity.
  - reflexivity.
  - by exists self'.
Defined.

(** C8 as stated does not hold: the buffer held [old output] before
    the call with an empty command and no longer holds it after. *)
Lemma run_command_empty_clears_log :
  process session_logged = None
  ∧ command_entry session_logged = []
  ∧ (py "old output" ++ [LF]) ∈ log_buffer session_logged
  ∧ ∃ self',
      _run_command session_logged quiet_world = (Ok self', quiet_world)
      ∧ (py "old output" ++ [LF]) ∉ log_buffer self'.
Proof.
  split; [reflexivity|]. split; [reflexivity|].
  split; [apply list_elem_of_here|].
  eexists. split; [reflexivity|].
  intros Hin. apply list_elem_of_singleton in Hin. discriminate Hin.
Qed.

End SessionChecks.

Module ServerChecks.
Import Server ServerFacts Examples.

Lemma enhance_appends_latest_md_witness :
  ui_modified_files
    (interactive_feedback glob_ex getmtime_ex relpath_ex
       (py "/proj" ++ [LF] ++ py "ignored") (py "Done.")
       (Some [py "src/main.py"]))
  = [py "src/main.py"; py "docs/notes.md"].
Proof.
  destruct (enhance_appends_latest_md glob_ex getmtime_ex relpath_ex
              (py "/proj" ++ [LF] ++ py "ignored") (py "Done.")
              (Some [py "src/main.py"]))
    as [[Hg _] | [[(g & Hg & Hn) _] | (f & t & Hf & Ht & Hmax & Hh)]].
  - by vm_compute in Hg.
  - vm_compute in Hg.
    apply elem_of_cons in Hg as [-> | Hg]; [discriminate Hn|].
    apply list_elem_of_singleton in Hg as ->. discriminate Hn.
  - vm_compute in Hf.
    apply elem_of_cons in Hf as [-> | Hf].
    + exfalso. injection Ht as <-.
      destruct (Hmax (py "/proj/docs/notes.md")) as (tg & Htg & Hle).
      * refine (bool_decide_unpack _ _). by vm_compute.
      * injection Htg as <-. lia.
    + apply list_elem_of_singleton in Hf as ->. exact Hh.
Defined.

(** C10 as stated does not hold: [README.md] exists, is the most
    recently modified [.md] file that has a modification time and is
    not in the supplied list, but [docs/notes.md] is a symbolic link
    whose target is gone; the list handed to the UI is the supplied
    list, without [README.md]. *)
Lemma latest_md_not_appended :
  py "/proj/README.md" ∈ glob_ex project
  ∧ getmtime_dangling (py "/proj/README.md") = Some 1700000000%Z
  ∧ (∀ g tg, g ∈ glob_ex project → getmtime_dangling g = Some tg →
       (tg <= 1700000000)%Z)
  ∧ relpath_ex (py "/proj/README.md") project = Some (py "README.md")
  ∧ (py "README.md" ∉ [py "src/main.py"])
  ∧ ui_modified_files
      (interactive_feedback glob_ex getmtime_dangling relpath_ex
         project (py "Done.") (Some [py "src/main.py"]))
    = [py "src/main.py"]
  ∧ ui_modified_files
      (interactive_feedback glob_ex getmtime_dangling relpath_ex
         project (py "Done.") (Some [py "src/main.py"]))
    ≠ [py "src/main.py"] ++ [py "README.md"].
Proof.
  split; [refine (bool_decide_unpack _ _); by vm_compute|].
  split; [reflexivity|]. split.
  { intros g tg _. unfold getmtime_dangling.
    destruct (bool_decide (g = py "/proj/README.md")); [|done].
    intros [= <-]. lia. }
  split; [reflexivity|].
  split; [refine (bool_decide_unpack _ _); by vm_compute|].
  split; [reflexivity|]. by vm_compute.
Qed.

End ServerChecks.

(** * More facts about server.py *)

Module ServerMore.
Import Server ServerFacts.

Lemma lstrip_fixed (s : str) :
  (∀ c t, s = c :: t → isspace c = false) → lstrip s = s.
Proof.
  destruct s as [|c s]; [done|]. intros Hc. simpl.
  by rewrite (Hc c s eq_refl).
Qed.

Lemma strip_fixed (s : str) :
  (∀ c t, s = c :: t → isspace c = false) →
  (∀ c t, s = t ++ [c] → isspace c = false) →
  strip s = s.
Proof.
  intros Hhd Htl. unfold strip, rstrip. rewrite (lstrip_fixed s Hhd).
  rewrite lstrip_fixed; [apply rev_involutive|].
  intros c t Hr. apply (Htl c (rev t)).
  by rewrite <- (rev_involutive s), Hr.
Qed.

Lemma strip_elem (s : str) (c : N) : c ∈ strip s → c ∈ s.
Proof.
  destruct (strip_spec s) as (a & b & Hs & _). intros Hc.
  rewrite Hs. rewrite !elem_of_app. auto.
Qed.

Lemma hd_split_no_sep (sep : N) (s : str) : sep ∉ hd [] (split sep s).
Proof.
  induction s as [|c s IH]; simpl; [by apply not_elem_of_nil|].
  destruct (N.eqb_spec c sep) as [->|Hne]; [by apply not_elem_of_nil|].
  destruct (split sep s) as [|w ws]; simpl in *.
  - intros Hin. apply list_elem_of_singleton in Hin. congruence.
  - intros Hin. apply elem_of_cons in Hin as [?|?]; [congruence|done].
Qed.

(** X1: [first_line] returns a text without line feed and without white
    space at either end, and applying it again changes nothing. *)
Theorem first_line_clean (text : str) :
  (LF ∉ first_line text)
  ∧ (∀ c t, first_line text = c :: t → isspace c = false)
  ∧ (∀ c t, first_line text = t ++ [c] → isspace c = false)
  ∧ first_line (first_line text) = first_line text.
Proof.
  assert (LF ∉ first_line text) as Hlf.
  { unfold first_line. intros Hin. apply strip_elem in Hin.
    by apply hd_split_no_sep in Hin. }
  destruct (strip_spec (hd [] (split LF text))) as (a & b & _ & _ & _ & Hh & Ht).
  fold (first_line text) in Hh, Ht.
  split; [done|]. split; [done|]. split; [done|].
  rewrite (first_line_whole (first_line text) Hlf).
  by apply strip_fixed.
Qed.

Section FileSystem.

Variable glob_md : str -> list str.
Variable getmtime : str -> option Z.
Variable relpath : str -> str -> option str.

Lemma with_mtime_fst (l : list str) (keyed : list (str * Z)) :
  with_mtime getmtime l = Some keyed → List.map fst keyed = l.
Proof.
  revert keyed. induction l as [|g l IH]; simpl; intros keyed Hk.
  - by injection Hk as <-.
  - destruct (getmtime g) as [tg|]; [|done].
    destruct (with_mtime getmtime l) as [r|]; [|done].
    injection Hk as <-. simpl. by rewrite (IH r).
Qed.

Lemma with_mtime_none (l : list str) (g : str) :
  g ∈ l → getmtime g = None → with_mtime getmtime l = None.
Proof.
  induction l as [|f l IH]; intros Hin Hg; [by apply not_elem_of_nil in Hin|].
  simpl. apply elem_of_cons in Hin as [<-|Hin]; [by rewrite Hg|].
  rewrite (IH Hin Hg). by destruct (getmtime f).
Qed.


(** X2: an error of [getmtime] on any one of the files found makes the
    search return nothing, whatever the other files are, and the list
    handed on is then the supplied list. *)
Theorem find_latest_swallows_errors (d g : str)
    (modified_files : option (list str)) :
  g ∈ glob_md d →
  getmtime g = None →
  find_latest_modified_md_file glob_md getmtime relpath d = None
  ∧ enhance_modified_files glob_md getmtime relpath d modified_files
    = default [] modified_files.
Proof.
  intros Hg Hm.
  assert (find_latest_modified_md_file glob_md getmtime relpath d = None)
    as Hnone.
  { unfold find_latest_modified_md_file.
    rewrite (with_mtime_none (glob_md d) g Hg Hm).
    by destruct (glob_md d). }
  split; [done|]. unfold enhance_modified_files. rewrite Hnone.
  by destruct modified_files as [[|]|].
Qed.

(** The head of the sorted list is the first entry of the largest
    key: what precedes it in the original list is strictly smaller. *)
Lemma sort_desc_head_first (l : list (str * Z)) :
  l ≠ [] →
  ∃ before y after rest,
    l = before ++ y :: after
    ∧ sort_desc l = y :: rest
    ∧ (∀ z, z ∈ before → (snd z < snd y)%Z)
    ∧ (∀ z, z ∈ after → (snd z <= snd y)%Z).
Proof.
  induction l as [|x l IH]; [done|]. intros _.
  change (sort_desc (x :: l)) with (insert_desc x (sort_desc l)).
  destruct l as [|x' l'].
  - exists [], x, [], []. repeat split; try done;
      intros z Hz; by apply not_elem_of_nil in Hz.
  - destruct IH as (before & y & after & rest & Hl & Hs & Hb & Ha); [done|].
    rewrite Hs. simpl. destruct (Z.leb_spec (snd y) (snd x)).
    + exists [], x, (x' :: l'), (y :: rest).
      split; [done|]. split; [done|].
      split; [intros z Hz; by apply not_elem_of_nil in Hz|].
      intros z Hz. rewrite Hl in Hz.
      apply elem_of_app in Hz as [Hz|Hz].
      * specialize (Hb z Hz). lia.
      * apply elem_of_cons in Hz as [->|Hz]; [done|].
        specialize (Ha z Hz). lia.
    + exists (x :: before), y, after, (insert_desc x rest).
      split; [by rewrite Hl|]. split; [done|]. split; [|done].
      intros z Hz. apply elem_of_cons in Hz as [->|Hz]; [done|by apply Hb].
Qed.

(** X3: when no call raises, the search returns, as a relative path,
    the first file in the order of the glob among those modified last:
    every file before it is strictly older, every file after it is not
    newer. *)
Theorem find_latest_first_newest (d : str) :
  glob_md d ≠ [] →
  (∀ g, g ∈ glob_md d → is_Some (getmtime g)) →
  ∃ before f after t,
    glob_md d = before ++ f :: after
    ∧ getmtime f = Some t
    ∧ (∀ g, g ∈ before → ∃ tg, getmtime g = Some tg ∧ (tg < t)%Z)
    ∧ (∀ g, g ∈ after → ∃ tg, getmtime g = Some tg ∧ (tg <= t)%Z)
    ∧ find_latest_modified_md_file glob_md getmtime relpath d
      = relpath f d.
Proof.
  intros Hne Hall. unfold find_latest_modified_md_file.
  destruct (with_mtime_total getmtime (glob_md d) Hall) as [keyed Hk].
  pose proof (with_mtime_fst _ _ Hk) as Hfst.
  destruct (with_mtime_elem getmtime _ _ Hk) as [Hk1 _].
  destruct (glob_md d) as [|g0 gs] eqn:Hg; [done|]. rewrite Hk.
  assert (keyed ≠ []) as Hkne by (intros ->; discriminate Hfst).
  destruct (sort_desc_head_first keyed Hkne)
    as (before & [f t] & after & rest & Hl & -> & Hb & Ha).
  exists (List.map fst before), f, (List.map fst after), t.
  split; [by rewrite <- Hfst, Hl, List.map_app|].
  assert (∀ z, z ∈ keyed → getmtime (fst z) = Some (snd z)) as Hget.
  { intros [g tg] Hz. by destruct (Hk1 g tg Hz). }
  split.
  { apply (Hget (f, t)). rewrite Hl. apply elem_of_app. right. left. }
  split; [|split; [|done]].
  - intros g Hin. apply list_elem_of_In, in_map_iff in Hin
      as ([g' tg] & <- & Hin%list_elem_of_In).
    exists tg. split; [|apply (Hb _ Hin)].
    apply (Hget (g', tg)). rewrite Hl. apply elem_of_app. by left.
  - intros g Hin. apply list_elem_of_In, in_map_iff in Hin
      as ([g' tg] & <- & Hin%list_elem_of_In).
    exists tg. split; [|apply (Ha _ Hin)].
    apply (Hget (g', tg)). rewrite Hl. apply elem_of_app. right. by right.
Qed.

Lemma enhance_cases (d : str) (modified_files : option (list str)) :
  let supplied := default [] modified_files in
  let enhanced :=
    enhance_modified_files glob_md getmtime relpath d modified_files in
  enhanced = supplied
  ∨ ∃ r, enhanced = supplied ++ [r] ∧ (r ∉ supplied) ∧ r ≠ []
         ∧ find_latest_modified_md_file glob_md getmtime relpath d = Some r.
Proof.
  intros supplied enhanced. unfold enhanced, enhance_modified_files.
  assert (match modified_files with
          | Some (x :: l) => x :: l
          | _ => []
          end = supplied) as ->.
  { unfold supplied. by destruct modified_files as [[|]|]. }
  destruct (find_latest_modified_md_file glob_md getmtime relpath d)
    as [r|]; [|by left].
  destruct (truthy r) eqn:Ht; [|by left]. simpl.
  destruct (decide (r ∉ supplied)) as [Hn|Hn].
  - rewrite (bool_decide_eq_true_2 _ Hn). right. exists r.
    split; [done|]. split; [done|]. split; [|done]. by destruct r.
  - rewrite (bool_decide_eq_false_2 _ Hn). by left.
Qed.

(** X4: the list handed on starts with the supplied list unchanged, is
    longer by at most one entry, and has no repeated path when the
    supplied list has none. *)
Theorem enhance_keeps_supplied (d : str)
    (modified_files : option (list str)) :
  let supplied := default [] modified_files in
  let enhanced :=
    enhance_modified_files glob_md getmtime relpath d modified_files in
  supplied `prefix_of` enhanced
  ∧ (length enhanced <= S (length supplied))%nat
  ∧ (NoDup supplied → NoDup enhanced).
Proof.
  intros supplied enhanced.
  destruct (enhance_cases d modified_files)
    as [E | (r & E & Hr & _ & _)]; fold supplied enhanced in E; rewrite E.
  - split; [done|]. split; [lia|done].
  - split; [by apply prefix_app_r|]. split.
    + rewrite length_app. simpl. lia.
    + intros Hnd. apply NoDup_app. split; [done|]. split.
      * intros x Hx Hx'. apply list_elem_of_singleton in Hx'. by subst.
      * apply NoDup_singleton.
Qed.

(** X5: enhancing a list that was already enhanced, for the same
    directory and file system, adds nothing. *)
Theorem enhance_idempotent (d : str) (modified_files : option (list str)) :
  enhance_modified_files glob_md getmtime relpath d
    (Some (enhance_modified_files glob_md getmtime relpath d modified_files))
  = enhance_modified_files glob_md getmtime relpath d modified_files.
Proof.
  destruct (enhance_cases d modified_files)
    as [E | (r & E & Hr & Hne & Hf)]; cbv zeta in E.
  - rewrite E.
    destruct (enhance_cases d (Some (default [] modified_files)))
      as [E' | (r & E' & Hr & Hne & Hf)]; cbv zeta in E'; simpl in E';
      [done|].
    exfalso. revert E. unfold enhance_modified_files. rewrite Hf.
    assert (match modified_files with
            | Some (x :: l) => x :: l
            | _ => []
            end = default [] modified_files) as ->
      by (by destruct modified_files as [[|]|]).
    rewrite (bool_decide_eq_true_2 _ Hr).
    destruct r; [done|]. simpl. intros E.
    apply (f_equal length) in E. rewrite length_app in E. simpl in E. lia.
  - rewrite E.
    destruct (enhance_cases d (Some (default [] modified_files ++ [r])))
      as [E' | (r' & E' & Hr' & Hne' & Hf')]; cbv zeta in E'; simpl in E';
      [done|].
    exfalso. assert (r' = r) as -> by congruence.
    apply Hr'. apply elem_of_app. right. left.
Qed.

End FileSystem.

Import Examples.

Lemma find_latest_swallows_errors_witness :
  enhance_modified_files glob_ex (fun _ => None) relpath_ex project
    (Some [py "src/main.py"])
  = [py "src/main.py"].
Proof.
  destruct (find_latest_swallows_errors glob_ex (fun _ => None) relpath_ex
              project (py "/proj/README.md") (Some [py "src/main.py"]))
    as [_ He].
  - refine (bool_decide_unpack _ _). by vm_compute.
  - reflexivity.
  - exact He.
Defined.

Lemma find_latest_first_newest_witness :
  find_latest_modified_md_file glob_ex (fun _ => Some 7%Z) relpath_ex project
  = Some (py "README.md").
Proof.
  destruct (find_latest_first_newest glob_ex (fun _ => Some 7%Z) relpath_ex
              project)
    as (before & f & after & t & Hg & Ht & Hb & Ha & ->).
  - intros E. vm_compute in E. discriminate E.
  - intros g _. by eexists.
  - destruct before as [|b before].
    + vm_compute in Hg. injection Hg as <- _. reflexivity.
    + exfalso. destruct (Hb b) as (tg & Hb1 & Hb2); [left|].
      injection Hb1 as <-. injection Ht as <-. lia.
Defined.

End ServerMore.

(** * More facts about kill_tree *)

Module KillTreeMore.
Import KillTreeFacts Tracing.

Section WithHost.

Context {W : Type} `{Host W}.

(** X6: once [psutil.Process] has found the root and [children] has
    listed its descendants, [kill_tree] returns without raising,
    whatever [kill], [is_running] and [terminate] do or raise for the
    individual processes. *)
Theorem kill_tree_returns (process parent : N) (procs : list N) (w : W) :
  psutil_Process process w = Ok parent →
  Process_children parent w = Ok procs →
  ∃ w', kill_tree process w = (Ok tt, w').
Proof. apply kill_tree_ok. Qed.

(** X7: when [kill_tree] raises, the error is the [psutil.Error] of
    [psutil.Process] or of [children], and no signal has been sent:
    the host is as it was. *)
Theorem kill_tree_raise_origin (process : N) (w w' : W) (e : exn) :
  kill_tree process w = (Raise e, w') →
  w' = w
  ∧ ∃ pe, e = PsutilError pe
          ∧ (psutil_Process process w = Raise pe
             ∨ ∃ parent, psutil_Process process w = Ok parent
                         ∧ Process_children parent w = Raise pe).
Proof.
  unfold kill_tree, bind, query.
  destruct (psutil_Process process w) as [parent|pe] eqn:Hp.
  - destruct (Process_children parent w) as [procs|pe] eqn:Hc.
    + destruct (kill_children_ok procs [] w) as (killed & w1 & ->).
      unfold kill_parent.
      destruct (terminate_remaining_ok (killed ++ [parent])
                  (snd (Process_kill parent w1))) as (w2 & ->).
      discriminate.
    + intros [= <- <-]. split; [done|]. exists pe. split; [done|].
      right. by exists parent.
  - intros [= <- <-]. split; [done|]. exists pe. split; [done|]. by left.
Qed.

Lemma kill_tree_found (process parent : N) (procs : list N) (w : W) :
  psutil_Process process w = Ok parent →
  Process_children parent w = Ok procs →
  kill_tree process w
  = bind (kill_children procs [])
      (fun killed =>
         bind (kill_parent parent)
           (fun _ => terminate_remaining (killed ++ [parent]))) w.
Proof.
  intros Hp Hc. unfold kill_tree, query.
  unfold bind at 1. rewrite Hp. unfold bind at 1. by rewrite Hc.
Qed.

End WithHost.

Section Traced.

Context {W : Type} `{Host W}.

Lemma kill_children_trace (procs killed : list N) (w : traced W) :
  ∃ killed' w',
    kill_children procs killed w = (Ok killed', w')
    ∧ snd w' = snd w ++ List.map Kill procs
    ∧ ∃ ks, killed' = killed ++ ks ∧ sublist ks procs.
Proof.
  revert killed w. induction procs as [|p procs IH]; intros killed w.
  - exists killed, w. simpl. split; [done|]. split; [by rewrite app_nil_r|].
    exists []. by rewrite app_nil_r.
  - simpl. unfold record_signal.
    destruct (Process_kill p (fst w)) as [[[]|e] w1] eqn:Hk; simpl.
    + destruct (IH (killed ++ [p]) (w1, snd w ++ [Kill p]))
        as (killed' & w' & -> & Ht & ks & -> & Hs).
      exists ((killed ++ [p]) ++ ks), w'. split; [done|].
      simpl in Ht. split; [by rewrite Ht, <- app_assoc|].
      exists (p :: ks). split; [by rewrite <- app_assoc|].
      by apply sublist_skip.
    + destruct (IH killed (w1, snd w ++ [Kill p]))
        as (killed' & w' & -> & Ht & ks & -> & Hs).
      exists (killed ++ ks), w'. split; [done|].
      simpl in Ht. split; [by rewrite Ht, <- app_assoc|].
      exists ks. split; [done|]. by apply sublist_cons.
Qed.

Lemma terminate_remaining_trace (killed : list N) (w : traced W) :
  ∃ w' ts,
    terminate_remaining killed w = (Ok tt, w')
    ∧ snd w' = snd w ++ List.map Terminate ts
    ∧ sublist ts killed.
Proof.
  revert w. induction killed as [|p killed IH]; intros w.
  - exists w, []. simpl. by rewrite app_nil_r.
  - simpl.
    destruct (Process_is_running p (fst w)) as [[|]|e].
    + unfold record_signal. simpl.
      destruct (IH (snd (Process_terminate p (fst w)), snd w ++ [Terminate p]))
        as (w' & ts & -> & Ht & Hs).
      exists w', (p :: ts). split; [done|].
      simpl in Ht. split; [by rewrite Ht, <- app_assoc|].
      by apply sublist_skip.
    + destruct (IH w) as (w' & ts & -> & Ht & Hs).
      exists w', ts. split; [done|]. split; [done|]. by apply sublist_cons.
    + destruct (IH w) as (w' & ts & -> & Ht & Hs).
      exists w', ts. split; [done|]. split; [done|]. by apply sublist_cons.
Qed.

(** X8: when [kill_tree] returns, it has sent [kill] to every listed
    descendant, in the order of the listing, then [kill] to the root,
    and only after that [terminate], to a subsequence of the listed
    descendants followed by the root; no other signal is sent. *)
Theorem kill_tree_signals (process parent : N) (procs : list N)
    (w : W) (sent : list signal) :
  psutil_Process process w = Ok parent →
  Process_children parent w = Ok procs →
  ∃ w' ts,
    kill_tree (W := traced W) process (w, sent)
    = (Ok tt, (w', sent ++ List.map Kill procs ++ [Kill parent]
                     ++ List.map Terminate ts))
    ∧ sublist ts (procs ++ [parent]).
Proof.
  intros Hp Hc.
  assert (psutil_Process (W := traced W) process (w, sent) = Ok parent)
    as Hp' by exact Hp.
  assert (Process_children (W := traced W) parent (w, sent) = Ok procs)
    as Hc' by exact Hc.
  rewrite (kill_tree_found (W := traced W) process parent procs (w, sent)
             Hp' Hc').
  unfold bind.
  destruct (kill_children_trace procs [] ((w, sent) : traced W))
    as (killed & w1 & -> & Ht1 & ks & -> & Hks).
  unfold kill_parent. simpl. unfold record_signal. simpl.
  destruct (terminate_remaining_trace (ks ++ [parent])
              (snd (Process_kill parent (fst w1)), snd w1 ++ [Kill parent]))
    as ([w2 t2] & ts & -> & Ht2 & Hts).
  simpl in Ht1, Ht2. exists w2, ts. split.
  - rewrite Ht2, Ht1. by rewrite <- !app_assoc.
  - etrans; [exact Hts|]. by apply sublist_app.
Qed.

End Traced.

Import Examples.

Lemma kill_tree_returns_witness :
  ∃ w', kill_tree 10 busy_world = (Ok tt, w').
Proof.
  apply (kill_tree_returns 10 10 [11; 12] busy_world); reflexivity.
Defined.

Lemma kill_tree_raise_origin_witness :
  psutil_Process 4242 quiet_world = Raise (NoSuchProcess 4242).
Proof.
  destruct (kill_tree_raise_origin 4242 quiet_world quiet_world
              (PsutilError (NoSuchProcess 4242)))
    as (_ & pe & Hpe & [Hp | (parent & Hp & _)]).
  - reflexivity.
  - injection Hpe as <-. exact Hp.
  - discriminate Hp.
Defined.

Lemma kill_tree_signals_witness :
  ∃ w' ts,
    kill_tree (W := traced SimpleHost.world) 10 (busy_world, [])
    = (Ok tt, (w', [Kill 11; Kill 12; Kill 10] ++ List.map Terminate ts)).
Proof.
  destruct (kill_tree_signals 10 10 [11; 12] busy_world [])
    as (w' & ts & Hk & _); [reflexivity | reflexivity |].
  by exists w', ts.
Defined.

End KillTreeMore.

(** * Facts about get_user_environment *)

Module WinEnvFacts.
Import WinEnv FeedbackUI.

Lemma index_first (c : N) (k v : str) :
  c ∉ k → index c (k ++ c :: v) = Some (length k).
Proof.
  induction k as [|x k IH]; intros Hk; simpl.
  - by rewrite N.eqb_refl.
  - destruct (N.eqb_spec x c) as [->|Hne]; [exfalso; apply Hk; left|].
    rewrite IH; [done|]. intros Hin. apply Hk. by right.
Qed.

Lemma index_missing (c : N) (s : str) : c ∉ s → index c s = None.
Proof.
  induction s as [|x s IH]; intros Hs; simpl; [done|].
  destruct (N.eqb_spec x c) as [->|Hne]; [exfalso; apply Hs; left|].
  rewrite IH; [done|]. intros Hin. apply Hs. by right.
Qed.

(** The inner loop: code units up to the next zero are appended to
    [current_string]. *)
Lemma parse_block_collect (s : str) (mem : list N) (cur : str)
    (result : list (str * str)) :
  0 ∉ s →
  parse_block (s ++ mem) cur result = parse_block mem (cur ++ s) result.
Proof.
  revert cur. induction s as [|c s IH]; intros cur Hs; simpl.
  - by rewrite app_nil_r.
  - destruct (N.eqb_spec c 0) as [->|Hne]; [exfalso; apply Hs; left|].
    rewrite IH; [by rewrite <- app_assoc|]. intros Hin. apply Hs. by right.
Qed.

Lemma parse_block_entries (entries : list (str * str)) (mem : list N)
    (result : list (str * str)) :
  (∀ k v, (k, v) ∈ entries → (61 ∉ k) ∧ (0 ∉ k) ∧ (0 ∉ v)) →
  parse_block
    (concat (List.map (fun e : str * str => fst e ++ [61] ++ snd e ++ [0])
               entries) ++ mem) [] result
  = parse_block mem [] (foldl store result entries).
Proof.
  revert result. induction entries as [|[k v] entries IH];
    intros result Hwf; [done|].
  destruct (Hwf k v) as (Hk61 & Hk0 & Hv0); [left|].
  cbn [List.map concat fst snd foldl].
  assert (((k ++ [61] ++ v ++ [0])
             ++ concat
                  (List.map
                     (fun e : str * str => fst e ++ [61] ++ snd e ++ [0])
                     entries)) ++ mem
          = (k ++ 61 :: v)
              ++ 0 :: concat
                        (List.map
                           (fun e : str * str =>
                              fst e ++ [61] ++ snd e ++ [0])
                           entries) ++ mem) as ->.
  { rewrite <- !app_assoc. simpl. by try rewrite <- !app_assoc. }
  rewrite (parse_block_collect (k ++ 61 :: v)).
  2:{ intros Hin. apply elem_of_app in Hin as [Hin|Hin]; [done|].
      apply elem_of_cons in Hin as [Hin|Hin]; [done|done]. }
  cbn [parse_block app N.eqb].
  destruct (k ++ 61 :: v) as [|c s] eqn:E; [by destruct k|]. rewrite <- E.
  rewrite (index_first 61 k v Hk61).
  rewrite take_app_length.
  replace (length k + 1)%nat with (length (k ++ [61])) by
    (rewrite length_app; simpl; lia).
  replace (k ++ 61 :: v) with ((k ++ [61]) ++ v) by
    (by rewrite <- app_assoc).
  rewrite drop_app_length.
  rewrite IH; [done|]. intros k' v' Hin. apply Hwf. by right.
Qed.

Lemma dict_set_fresh {V : Type} (k : str) (v : V) (d : list (str * V)) :
  k ∉ List.map fst d → dict_set k v d = d ++ [(k, v)].
Proof.
  induction d as [|[k' v'] d IH]; intros Hk; simpl; [done|].
  destruct (decide (k = k')) as [->|Hne]; [exfalso; apply Hk; left|].
  rewrite IH; [done|]. intros Hin. apply Hk. by right.
Qed.

Lemma foldl_store_nodup (entries result : list (str * str)) :
  NoDup (List.map fst (result ++ entries)) →
  foldl store result entries = result ++ entries.
Proof.
  revert result. induction entries as [|[k v] entries IH];
    intros result Hnd; simpl; [by rewrite app_nil_r|].
  rewrite List.map_app in Hnd. simpl in Hnd.
  apply NoDup_app in Hnd as (Hr & Hdisj & He).
  unfold store at 2. simpl. rewrite dict_set_fresh.
  - rewrite IH; [by rewrite <- app_assoc|].
    rewrite <- app_assoc. simpl. rewrite List.map_app. simpl.
    apply NoDup_app. split; [done|]. split; [done|done].
  - intros Hin. apply (Hdisj k Hin). left.
Qed.

(** X9: on Windows, for a block that holds variables whose names
    contain neither [=] nor a zero and whose values contain no zero,
    [get_user_environment] returns the variables of the block, a later
    one replacing an earlier one of the same name, and ignores what
    follows the empty string that ends the block; when the names are
    distinct the result is the list of the variables, in their
    order. *)
Theorem environment_block_round_trip (environ entries : list (str * str))
    (rest : list N) :
  (∀ k v, (k, v) ∈ entries → (61 ∉ k) ∧ (0 ∉ k) ∧ (0 ∉ v)) →
  get_user_environment true environ true (Some (block_of entries ++ rest))
  = Returns (foldl store [] entries)
  ∧ (NoDup (List.map fst entries) → foldl store [] entries = entries).
Proof.
  intros Hwf. split.
  - unfold get_user_environment, block_of. simpl.
    rewrite <- app_assoc. by rewrite parse_block_entries.
  - intros Hnd. by apply (foldl_store_nodup entries []).
Qed.

(** X10: a string of the block without [=] is not skipped: [str.index]
    raises [ValueError], and the variables read before it are lost
    with it. *)
Theorem environment_entry_without_equals (environ entries : list (str * str))
    (bad : str) (rest : list N) :
  (∀ k v, (k, v) ∈ entries → (61 ∉ k) ∧ (0 ∉ k) ∧ (0 ∉ v)) →
  bad ≠ [] → 61 ∉ bad → 0 ∉ bad →
  get_user_environment true environ true
    (Some (concat
             (List.map (fun e : str * str => fst e ++ [61] ++ snd e ++ [0])
                entries)
           ++ bad ++ [0] ++ rest))
  = Raises (ValueError (py "substring not found")).
Proof.
  intros Hwf Hne H61 H0. unfold get_user_environment. simpl.
  rewrite parse_block_entries by done.
  rewrite (parse_block_collect bad) by done. simpl.
  destruct bad as [|c bad]; [done|].
  by rewrite (index_missing 61 (c :: bad) H61).
Qed.

End WinEnvFacts.

(** * Facts about the file list *)

Module FileListFacts.
Import FileListWidget FeedbackUI Handlers SortedFacts SessionFacts.

Lemma leb_refl (a : str) : Str.leb a a = true.
Proof. by destruct (leb_total a a). Qed.

Lemma insert_unchecked (p : str) (l : list str) :
  insert_item (p, false) (List.map (fun q => (q, false)) l)
  = List.map (fun q => (q, false)) (insert_sorted p l).
Proof.
  induction l as [|q l IH]; [done|].
  cbn [List.map insert_item insert_sorted].
  unfold key_lt, str_lt. cbn [fst snd negb Bool.eqb].
  destruct (decide (q = p)) as [->|Hne].
  - rewrite bool_decide_eq_true_2 by done. by rewrite leb_refl.
  - rewrite bool_decide_eq_false_2 by done.
    destruct (Str.leb p q); cbn [negb]; [done|]. by rewrite IH.
Qed.

Lemma insert_checked (p : str) (l : list str) (rest : list (str * bool)) :
  (∀ e, e ∈ rest → snd e = false) →
  insert_item (p, true) (List.map (fun q => (q, true)) l ++ rest)
  = List.map (fun q => (q, true)) (insert_sorted p l) ++ rest.
Proof.
  intros Hrest. induction l as [|q l IH].
  - cbn [List.map app insert_sorted]. destruct rest as [|[q b] rest]; [done|].
    assert (b = false) as -> by (apply (Hrest (q, b)); left).
    done.
  - cbn [List.map app insert_item insert_sorted].
    unfold key_lt, str_lt. cbn [fst snd negb Bool.eqb].
    destruct (decide (q = p)) as [->|Hne].
    + rewrite bool_decide_eq_true_2 by done. by rewrite leb_refl.
    + rewrite bool_decide_eq_false_2 by done.
      destruct (Str.leb p q); cbn [negb]; [done|]. by rewrite IH.
Qed.

Lemma insert_unchecked_after (p : str) (l : list str)
    (rest : list (str * bool)) :
  insert_item (p, false) (List.map (fun q => (q, true)) l ++ rest)
  = List.map (fun q => (q, true)) l ++ insert_item (p, false) rest.
Proof.
  induction l as [|q l IH]; [done|].
  cbn [List.map app insert_item]. unfold key_lt at 1.
  cbn [fst snd negb Bool.eqb andb]. by rewrite IH.
Qed.

(** X11: [_reorder_files] lays the items out with the checked paths
    first, in lexical order, and the unchecked paths after them, in
    lexical order. *)
Theorem reorder_files_layout (file_items : list (str * bool)) :
  _reorder_files file_items
  = List.map (fun q => (q, true))
      (sorted (List.map fst (List.filter snd file_items)))
    ++ List.map (fun q => (q, false))
         (sorted (List.map fst (List.filter unchecked file_items))).
Proof.
  induction file_items as [|[p b] items IH]; [done|].
  change (_reorder_files ((p, b) :: items))
    with (insert_item (p, b) (_reorder_files items)).
  rewrite IH. destruct b; cbn [List.filter snd unchecked negb List.map fst].
  - change (sorted (p :: ?l)) with (insert_sorted p (sorted l)).
    apply insert_checked. intros e He.
    apply list_elem_of_In, in_map_iff in He as (q & <- & _). done.
  - change (sorted (p :: ?l)) with (insert_sorted p (sorted l)).
    by rewrite insert_unchecked_after, insert_unchecked.
Qed.

End FileListFacts.

(** * Facts about the selection *)

Module SelectionFacts.
Import FileListWidget FeedbackUI Handlers SessionFacts.

Lemma dict_set_elem {V : Type} (k : str) (v : V) (d : list (str * V))
    (e : str * V) :
  e ∈ dict_set k v d → e = (k, v) ∨ e ∈ d.
Proof.
  induction d as [|[k' v'] d IH]; simpl.
  - intros He. apply list_elem_of_singleton in He. by left.
  - destruct (decide (k = k')) as [->|Hne]; intros He;
      apply elem_of_cons in He as [->|He].
    + by left.
    + right. by right.
    + right. left.
    + destruct (IH He) as [->|Hd]; [by left|right; by right].
Qed.

Lemma dict_set_keys {V : Type} (k : str) (v : V) (d : list (str * V)) :
  list_to_set (List.map fst (dict_set k v d))
  =@{gset str} {[ k ]} ∪ list_to_set (List.map fst d).
Proof.
  induction d as [|[k' v'] d IHd]; simpl; [done|].
  destruct (decide (k = k')) as [->|Hne]; simpl.
  - by rewrite (assoc_L (∪)), (idemp_L (∪)).
  - rewrite IHd, !(assoc_L (∪)). f_equal. apply (comm_L (∪)).
Qed.

(** The checked paths of a list whose check boxes carry the default
    state. *)
Lemma selected_of_default_items (file_items : list (str * bool)) :
  (∀ e, e ∈ file_items → snd e = default_checked (fst e)) →
  list_to_set (get_selected_files file_items)
  =@{gset str}
  filter (fun p => default_checked p = true)
    (list_to_set (List.map fst file_items) : gset str).
Proof.
  intros Hdef. unfold get_selected_files. apply set_eq. intros x.
  rewrite elem_of_filter, !elem_of_list_to_set, !list_elem_of_In.
  rewrite !in_map_iff. split.
  - intros (e & <- & He). apply filter_In in He as [He Hs].
    split; [|by exists e].
    rewrite <- (Hdef e) by (by apply list_elem_of_In). done.
  - intros (Hx & e & <- & He). exists e. split; [done|].
    apply filter_In. split; [done|].
    rewrite (Hdef e) by (by apply list_elem_of_In). done.
Qed.

Lemma fold_add_candidate_items (l : list str) (self : t)
    (items0 : list (str * bool)) :
  file_list self = Some items0 →
  (∀ e, e ∈ items0 → snd e = default_checked (fst e)) →
  ∃ items,
    file_list (foldl add_candidate self l) = Some items
    ∧ (∀ e, e ∈ items → snd e = default_checked (fst e))
    ∧ list_to_set (List.map fst items)
      =@{gset str} list_to_set (List.map fst items0) ∪ list_to_set l.
Proof.
  revert self items0. induction l as [|f l IH]; intros self items0 Hf Hd.
  - exists items0. split; [done|]. split; [done|].
    simpl. by rewrite (right_id_L ∅ (∪)).
  - simpl.
    assert (file_list (add_candidate self f)
            = Some (dict_set f (default_checked f) items0)) as Hf'.
    { unfold add_candidate. rewrite Hf.
      by destruct (endswith (lower f) (py ".md")). }
    destruct (IH (add_candidate self f) _ Hf') as (items & Hi & Hd' & Hk).
    + intros e He. apply dict_set_elem in He as [->|He]; [done|by apply Hd].
    + exists items. split; [done|]. split; [done|].
      rewrite Hk, dict_set_keys. simpl.
      rewrite !(assoc_L (∪)). f_equal. apply (comm_L (∪)).
Qed.

Lemma filter_list_to_set (P : str → bool) (l : list str) :
  filter (fun p => P p = true) (list_to_set l : gset str)
  = list_to_set (List.filter P l).
Proof.
  apply set_eq. intros x.
  rewrite elem_of_filter, !elem_of_list_to_set, !list_elem_of_In, filter_In.
  tauto.
Qed.

(** The file list and the selection that [_create_ui] builds. *)
Lemma create_ui_files (self : t) :
  file_list self = None →
  selected_files self = ∅ →
  files_consistent (_create_ui self).
Proof.
  intros Hf Hs. unfold files_consistent.
  destruct (create_ui_spec self) as (Hsel & _ & Hm & _).
  rewrite Hsel, Hm, Hs, (left_id_L ∅ (∪)).
  unfold _create_ui.
  change (file_list (_create_rules_section ?s)) with (file_list s).
  destruct (modified_files self) as [|f l] eqn:Hl.
  - rewrite Hf. done.
  - unfold _create_file_changes_section. rewrite Hl.
    destruct (fold_add_candidate_items (f :: l)
                (set_file_list (Some []) self) [])
      as (items & -> & Hd & Hk); [done| |].
    { intros e He. by apply not_elem_of_nil in He. }
    split; [rewrite Hk; simpl; by rewrite (left_id_L ∅ (∪))|].
    rewrite (selected_of_default_items items Hd), Hk.
    change (list_to_set (List.map fst []) : gset str) with (∅ : gset str).
    rewrite (left_id_L ∅ (∪)). apply filter_list_to_set.
Qed.

Section WithHost.

Context {W : Type} `{Host W}.

(** Starting a command when none runs changes neither the candidates
    nor the selection nor the file list. *)
Lemma run_command_idle_files (w : W) (self : t) :
  process self = None →
  ∃ self' w',
    _run_command self w = (Ok self', w')
    ∧ selected_files self' = selected_files self
    ∧ modified_files self' = modified_files self
    ∧ file_list self' = file_list self.
Proof.
  intros Hp. unfold _run_command. rewrite Hp.
  destruct (truthy (command_entry (set_log_buffer [] self)));
    cbn [negb].
  - cbv beta.
    match goal with
    | |- context [Popen ?c ?d w] =>
        destruct (Popen c d w) as [[pid|msg] w']
    end; by eexists _, _.
  - by eexists _, _.
Qed.

(** X12: in the window as constructed, the check boxes of the file list
    and the selection agree: the listed paths are the candidates and
    the checked paths are the selected ones; in particular every
    selected path is a candidate. *)
Theorem files_consistent_after_construction (w : W)
    (project_directory prompt : str)
    (modified_files : option (list str)) (settings : QSettings.t) :
  ∃ self w',
    init project_directory prompt modified_files settings w = (Ok self, w')
    ∧ files_consistent self
    ∧ ∀ p, p ∈ selected_files self → p ∈ FeedbackUI.modified_files self.
Proof.
  unfold init.
  match goal with
  | |- context [_create_ui ?s] =>
      pose proof (create_ui_files s eq_refl eq_refl) as Hc;
      destruct (create_ui_spec s) as (Hs & _ & _ & Hp & _);
      set (self1 := _create_ui s) in *
  end.
  assert (∀ s : t, files_consistent s →
            ∀ p, p ∈ selected_files s → p ∈ FeedbackUI.modified_files s)
    as Hsub.
  { intros s. unfold files_consistent.
    destruct (file_list s) as [items|].
    - intros [Hk Hsel] p Hp'. rewrite <- Hsel in Hp'.
      apply elem_of_list_to_set in Hp'.
      assert (p ∈ (list_to_set (List.map fst items) : gset str)) as Hin.
      { apply elem_of_list_to_set. unfold get_selected_files in Hp'.
        apply list_elem_of_In, in_map_iff in Hp' as (e & <- & He).
        apply filter_In in He as [He _].
        apply list_elem_of_In, in_map. done. }
      rewrite Hk in Hin. by apply elem_of_list_to_set in Hin.
    - intros [_ ->] p Hp'. by apply not_elem_of_empty in Hp'. }
  destruct (execute_automatically (config self1)).
  - destruct (run_command_idle_files w self1 Hp)
      as (self' & w' & -> & E1 & E2 & E3).
    assert (files_consistent self') as Hc'.
    { unfold files_consistent in *. by rewrite E1, E2, E3. }
    exists self', w'. split; [done|]. split; [done|]. by apply Hsub.
  - exists self1, w. split; [done|]. split; [done|]. by apply Hsub.
Qed.

End WithHost.

Lemma select_all_keys (items : list (str * bool)) :
  List.map fst (select_all items) = List.map fst items.
Proof. unfold select_all. by rewrite List.map_map. Qed.

Lemma deselect_all_keys (items : list (str * bool)) :
  List.map fst (deselect_all items) = List.map fst items.
Proof. unfold deselect_all. by rewrite List.map_map. Qed.

(** After [select_all] every listed path is reported as selected, in
    the order of the list; after [deselect_all] none is. *)
Lemma select_all_selected (items : list (str * bool)) :
  get_selected_files (select_all items) = List.map fst items.
Proof.
  unfold get_selected_files, select_all.
  induction items as [|[p b] items IH]; [done|]. simpl. by rewrite IH.
Qed.

Lemma deselect_all_selected (items : list (str * bool)) :
  get_selected_files (deselect_all items) = [].
Proof.
  unfold get_selected_files, deselect_all.
  induction items as [|[p b] items IH]; [done|]. simpl. by rewrite IH.
Qed.

(** X13: for a window whose file list and selection agree,
    [_select_all_files] selects exactly the candidates,
    [_deselect_all_files] after it leaves nothing selected, and both
    keep the agreement. *)
Theorem select_all_then_deselect_all (self : t) :
  files_consistent self →
  selected_files (_select_all_files self)
  = list_to_set (modified_files self)
  ∧ selected_files (_deselect_all_files (_select_all_files self)) = ∅
  ∧ files_consistent (_select_all_files self)
  ∧ files_consistent (_deselect_all_files self).
Proof.
  destruct (file_list self) as [items|] eqn:Hf.
  - unfold files_consistent, _select_all_files, _deselect_all_files.
    rewrite Hf.
    intros [Hk Hs]. cbn [selected_files set_selected_files set_file_list
                         file_list modified_files].
    pose proof (select_all_keys items) as Hka.
    pose proof (deselect_all_keys items) as Hkd.
    pose proof (select_all_selected items) as Hsa.
    pose proof (deselect_all_selected items) as Hsd.
    rewrite Hka, Hkd, Hsa, Hsd. by repeat split.
  - assert (_select_all_files self = self) as Ea
      by (unfold _select_all_files; by rewrite Hf).
    assert (_deselect_all_files self = self) as Ed
      by (unfold _deselect_all_files; by rewrite Hf).
    rewrite Ea, Ed. unfold files_consistent. rewrite Hf.
    intros [Hm Hs]. rewrite Hm, Hs. by repeat split.
Qed.

Import Examples.

Lemma select_all_then_deselect_all_witness :
  selected_files
    (_deselect_all_files (_select_all_files (session_a (py "ok")))) = ∅.
Proof.
  destruct (select_all_then_deselect_all (session_a (py "ok")))
    as (_ & Hd & _).
  - split; by vm_compute.
  - exact Hd.
Defined.

End SelectionFacts.

(** * Facts about the command runner, the logs and the settings *)

Module RunnerFacts.
Import FeedbackUI Handlers FeedbackUIFacts SessionFacts.

Section WithHost.

Context {W : Type} `{Host W}.

(** The window just before [Popen] is called. *)
Lemma run_command_launch (w : W) (self : t) :
  process self = None →
  command_entry self ≠ [] →
  _run_command self w
  = let started :=
      set_run_button (py "Sto&p")
        (_append_log (py "$ " ++ command_entry self ++ [LF])
           (set_log_buffer [] self)) in
    match Popen (command_entry self) (project_directory self) w with
    | (Ok pid, w') => (Ok (set_process (Some pid) started), w')
    | (Raise msg, w') =>
        (Ok (set_run_button (py "&Run")
               (_append_log (py "Error running command: " ++ msg ++ [LF])
                  started)), w')
    end.
Proof.
  intros Hp Hc. unfold _run_command. rewrite Hp.
  change (command_entry (set_log_buffer [] self)) with (command_entry self).
  apply truthy_true in Hc. by rewrite Hc.
Qed.

(** X14: a launch that fails is never fatal: the handler returns, no
    process is attached, the button is back to [&Run], and the log
    buffer holds the command line and the message of the error. *)
Theorem run_command_launch_failure (w w' : W) (self : t) (msg : str) :
  process self = None →
  command_entry self ≠ [] →
  Popen (command_entry self) (project_directory self) w = (Raise msg, w') →
  ∃ self',
    _run_command self w = (Ok self', w')
    ∧ process self' = None
    ∧ run_button self' = py "&Run"
    ∧ log_buffer self'
      = [py "$ " ++ command_entry self ++ [LF];
         py "Error running command: " ++ msg ++ [LF]].
Proof.
  intros Hp Hc Hl. rewrite (run_command_launch w self Hp Hc).
  cbv zeta. rewrite Hl. eexists. split; [reflexivity|]. by repeat split.
Qed.

(** X15: the run button is a toggle. A successful start attaches the
    new process, clears the log buffer down to the command line and
    shows [Sto&p]; pressing the button again calls the terminator on
    that process and, when it returns, detaches the process, shows
    [&Run], launches nothing and leaves the log buffer as it is. *)
Theorem run_command_toggle (w w' w'' : W) (self : t) (pid : N) :
  process self = None →
  command_entry self ≠ [] →
  Popen (command_entry self) (project_directory self) w = (Ok pid, w') →
  kill_tree pid w' = (Ok tt, w'') →
  ∃ started stopped,
    _run_command self w = (Ok started, w')
    ∧ process started = Some pid
    ∧ run_button started = py "Sto&p"
    ∧ log_buffer started = [py "$ " ++ command_entry self ++ [LF]]
    ∧ _run_command started w' = (Ok stopped, w'')
    ∧ process stopped = None
    ∧ run_button stopped = py "&Run"
    ∧ log_buffer stopped = log_buffer started.
Proof.
  intros Hp Hc Hl Hk. rewrite (run_command_launch w self Hp Hc).
  cbv zeta. rewrite Hl. eexists _, _. split; [reflexivity|].
  split; [done|]. split; [done|]. split; [done|].
  unfold _run_command at 1. cbn [process set_process].
  unfold bind. rewrite Hk. split; [reflexivity|]. by repeat split.
Qed.

Variable poll : N -> W -> option Z * W.

(** X16: once the timer has seen the process end, the handle is gone:
    the exit code is the last line of the log buffer, and a window
    closed after that without a submission returns the logs without
    calling the terminator. *)
Theorem exit_observed_then_closed (w w' : W) (self : t) (p : N)
    (exit_code : Z) :
  process self = Some p →
  feedback_result self = None →
  poll p w = (Some exit_code, w') →
  ∃ self',
    _check_process_status poll self w = (self', w')
    ∧ process self' = None
    ∧ run_button self' = py "&Run"
    ∧ log_buffer self'
      = log_buffer self
          ++ [[LF] ++ py "Process exited with code "
                ++ str_of_int exit_code ++ [LF]]
    ∧ run self' w'
      = (Ok {| FeedbackResult.command_logs := concat (log_buffer self');
               FeedbackResult.interactive_feedback := [];
               FeedbackResult.modified_files_content := None;
               FeedbackResult.selected_files := [] |}, w').
Proof.
  intros Hp Hr Hpoll. unfold _check_process_status. rewrite Hp, Hpoll.
  eexists. split; [reflexivity|]. split; [done|]. split; [done|].
  split; [done|]. unfold run, bind. cbn [process set_process].
  cbn [feedback_result set_process set_run_button _append_log set_log_text
       set_log_buffer]. by rewrite Hr.
Qed.

(** While the process has not ended, or when there is none, the
    timer changes nothing in the window. *)
Lemma process_status_unchanged (w : W) (self : t) :
  (process self = None ∨
   ∃ p, process self = Some p ∧ fst (poll p w) = None) →
  fst (_check_process_status poll self w) = self.
Proof.
  unfold _check_process_status.
  intros [-> | (p & -> & Hpoll)]; [done|].
  destruct (poll p w) as [[code|] w']; [discriminate Hpoll|done].
Qed.

(** The log buffer after a run of appended lines. *)
Lemma append_log_lines (lines : list str) (self : t) :
  log_buffer (foldl (fun s line => _append_log line s) self lines)
  = log_buffer self ++ lines
  ∧ process (foldl (fun s line => _append_log line s) self lines)
    = process self
  ∧ feedback_result (foldl (fun s line => _append_log line s) self lines)
    = feedback_result self
  ∧ log_text (foldl (fun s line => _append_log line s) self lines)
    = log_text self ++ List.map rstrip lines.
Proof.
  revert self. induction lines as [|line lines IH]; intros self; simpl.
  - by rewrite !app_nil_r.
  - destruct (IH (_append_log line self)) as (-> & -> & -> & ->).
    cbn [_append_log log_buffer process feedback_result log_text
         set_log_text set_log_buffer].
    by rewrite <- !app_assoc.
Qed.

(** X17: the lines handed to [_append_log] reach the caller in the order
    of their arrival: a window closed without a submission and with no
    process attached returns the earlier buffer followed by the lines,
    joined without separator; after [clear_logs] only the later lines
    are returned. *)
Theorem logs_in_arrival_order (w : W) (self : t) (lines : list str) :
  process self = None →
  feedback_result self = None →
  run (foldl (fun s line => _append_log line s) self lines) w
  = (Ok {| FeedbackResult.command_logs :=
             concat (log_buffer self) ++ concat lines;
           FeedbackResult.interactive_feedback := [];
           FeedbackResult.modified_files_content := None;
           FeedbackResult.selected_files := [] |}, w)
  ∧ run (foldl (fun s line => _append_log line s) (clear_logs self) lines) w
    = (Ok {| FeedbackResult.command_logs := concat lines;
             FeedbackResult.interactive_feedback := [];
             FeedbackResult.modified_files_content := None;
             FeedbackResult.selected_files := [] |}, w).
Proof.
  intros Hp Hr. split.
  - destruct (append_log_lines lines self) as (Hl & Hp' & Hr' & _).
    unfold run, bind. rewrite Hp', Hr', Hl, Hp, Hr.
    by rewrite concat_app.
  - destruct (append_log_lines lines (clear_logs self))
      as (Hl & Hp' & Hr' & _).
    unfold run, bind. rewrite Hp', Hr', Hl.
    cbn [clear_logs process feedback_result log_buffer set_log_text
         set_log_buffer]. by rewrite Hp, Hr.
Qed.

End WithHost.

End RunnerFacts.

(** * Facts about the stored settings *)

Module SettingsFacts.
Import FeedbackUI Handlers FeedbackUIFacts SessionFacts.

Lemma value_bool_set (s : QSettings.t) (group key : str) (v dflt : bool) :
  QSettings.value_bool (QSettings.setValue_bool group key v s) group key dflt
  = v.
Proof.
  unfold QSettings.value_bool, QSettings.setValue_bool. simpl.
  by rewrite lookup_insert_eq.
Qed.

Lemma value_bool_set_other (s : QSettings.t) (group key key' : str)
    (v dflt : bool) :
  key ≠ key' →
  QSettings.value_bool (QSettings.setValue_bool group key v s) group key' dflt
  = QSettings.value_bool s group key' dflt.
Proof.
  intros Hne. unfold QSettings.value_bool, QSettings.setValue_bool. simpl.
  rewrite lookup_insert_ne; [done|]. congruence.
Qed.

Lemma value_text_set (s : QSettings.t) (group key : str) (v dflt : str) :
  QSettings.value_text (QSettings.setValue_text group key v s) group key dflt
  = v.
Proof.
  unfold QSettings.value_text, QSettings.setValue_text. simpl.
  by rewrite lookup_insert_eq.
Qed.

Lemma value_text_removed (s : QSettings.t) (group key : str) (dflt : str) :
  QSettings.value_text (QSettings.remove group key s) group key dflt = dflt.
Proof.
  unfold QSettings.value_text, QSettings.remove. simpl.
  by rewrite lookup_delete_eq.
Qed.

(** What [_create_ui] leaves alone. *)
Lemma create_ui_frame (self : t) :
  project_directory (_create_ui self) = project_directory self
  ∧ config (_create_ui self) = config self
  ∧ command_entry (_create_ui self) = command_entry self
  ∧ process (_create_ui self) = process self
  ∧ log_buffer (_create_ui self) = log_buffer self.
Proof.
  unfold _create_ui.
  change (project_directory (_create_rules_section ?s))
    with (project_directory s).
  change (config (_create_rules_section ?s)) with (config s).
  change (command_entry (_create_rules_section ?s)) with (command_entry s).
  change (process (_create_rules_section ?s)) with (process s).
  change (log_buffer (_create_rules_section ?s)) with (log_buffer s).
  destruct (modified_files self); [done|].
  destruct (create_file_changes_frame self)
    as (-> & _ & _ & -> & -> & _ & _ & _ & -> & -> & _).
  done.
Qed.

Section WithHost.

Context {W : Type} `{Host W}.

(** X18: the draft. The periodic save stores the stripped free text
    under [feedback_draft] and does nothing at all for an empty or
    white-space text, so an earlier draft survives it; a submission
    removes the stored draft. *)
Theorem draft_saved_then_cleared (w : W) (self : t) (order : list str)
    (dflt : str) :
  (strip (feedback_text self) = [] → _auto_save_draft self = self)
  ∧ (strip (feedback_text self) ≠ [] →
       QSettings.value_text (settings (_auto_save_draft self))
         (project_group_name self) (py "feedback_draft") dflt
       = strip (feedback_text self))
  ∧ QSettings.value_text
      (settings (_submit_feedback w (_auto_save_draft self) order))
      (project_group_name self) (py "feedback_draft") dflt
    = dflt.
Proof.
  split; [|split].
  - intros He. unfold _auto_save_draft. by rewrite He.
  - intros Hne. unfold _auto_save_draft. apply truthy_true in Hne.
    rewrite Hne. cbn [settings set_settings]. apply value_text_set.
  - unfold _submit_feedback.
    cbn [settings set_feedback_result _clear_draft set_settings].
    assert (project_group_name (_auto_save_draft self)
            = project_group_name self) as ->.
    { unfold _auto_save_draft.
      by destruct (truthy (strip (feedback_text self))). }
    apply value_text_removed.
Qed.

(** The configuration and the command line of a constructed window;
    without automatic execution nothing is started. *)
Lemma init_config (w : W) (project_directory prompt : str)
    (modified_files : option (list str)) (settings : QSettings.t) :
  let group := get_project_settings_group project_directory in
  let command := QSettings.value_text settings group (py "run_command") [] in
  let auto :=
    QSettings.value_bool settings group (py "execute_automatically") false in
  ∃ built,
    process built = None
    ∧ FeedbackUI.project_directory built = project_directory
    ∧ command_entry built = command
    ∧ config built
      = {| run_command := command; execute_automatically := auto |}
    ∧ init project_directory prompt modified_files settings w
      = if auto then _run_command built w else (Ok built, w).
Proof.
  intros group command auto. unfold init.
  match goal with
  | |- context [_create_ui ?s] =>
      destruct (create_ui_frame s) as (Hd & Hc & He & Hp & _);
      exists (_create_ui s)
  end.
  subst group command auto.
  split; [rewrite Hp; reflexivity|]. split; [rewrite Hd; reflexivity|].
  split; [rewrite He; reflexivity|]. split; [rewrite Hc; reflexivity|].
  rewrite Hc. cbn [config execute_automatically].
  by destruct (QSettings.value_bool settings
                 (get_project_settings_group project_directory)
                 (py "execute_automatically") false).
Qed.

(** X19: what [_save_config] stores is what the next window of the same
    project starts from: the same configuration and the stored command
    in the command line; without automatic execution nothing is
    started, and with it and a non-empty command the command is
    launched during construction. *)
Theorem saved_config_read_back (w : W) (self : t)
    (project_directory prompt : str) (modified_files : option (list str)) :
  project_group_name self = get_project_settings_group project_directory →
  ∃ self' w',
    init project_directory prompt modified_files
      (settings (_save_config self)) w = (Ok self', w')
    ∧ config self' = config self
    ∧ command_entry self' = run_command (config self)
    ∧ (execute_automatically (config self) = false →
         w' = w ∧ process self' = None)
    ∧ (execute_automatically (config self) = true →
       run_command (config self) ≠ [] →
       ∀ pid w1,
         Popen (run_command (config self)) project_directory w = (Ok pid, w1) →
         w' = w1 ∧ process self' = Some pid).
Proof.
  intros Hg.
  destruct (init_config w project_directory prompt modified_files
              (settings (_save_config self)))
    as (built & Hp & Hd & He & Hc & ->).
  cbv zeta in He, Hc.
  assert (QSettings.value_text (settings (_save_config self))
            (get_project_settings_group project_directory)
            (py "run_command") [] = run_command (config self)) as Ecmd.
  { rewrite <- Hg. unfold _save_config.
    cbn [settings _append_log set_log_text set_log_buffer set_settings].
    unfold QSettings.value_text, QSettings.setValue_bool,
      QSettings.setValue_text. simpl. by rewrite lookup_insert_eq. }
  assert (QSettings.value_bool (settings (_save_config self))
            (get_project_settings_group project_directory)
            (py "execute_automatically") false
          = execute_automatically (config self)) as Eauto.
  { rewrite <- Hg. unfold _save_config.
    cbn [settings _append_log set_log_text set_log_buffer set_settings].
    apply value_bool_set. }
  rewrite Ecmd in He, Hc. rewrite Eauto in Hc. rewrite Eauto.
  assert (config built = config self) as Hcfg.
  { rewrite Hc. by destruct (config self). }
  destruct (execute_automatically (config self)) eqn:Ea.
  - destruct (run_command_idle w built Hp) as (self' & w' & Hr & _).
    exists self', w'. split; [done|].
    destruct (decide (command_entry built = [])) as [Hempty|Hne].
    + revert Hr. unfold _run_command. rewrite Hp.
      change (command_entry (set_log_buffer [] built))
        with (command_entry built).
      rewrite Hempty. intros [= <- <-].
      split; [done|]. split; [by rewrite <- He|]. split; [done|].
      intros _ Hn. rewrite <- He in Hn. done.
    + revert Hr. rewrite (RunnerFacts.run_command_launch w built Hp Hne).
      cbv zeta. rewrite He, Hd.
      destruct (Popen (run_command (config self)) project_directory w)
        as [[pid|msg] w1] eqn:Hl; intros [= <- <-].
      * split; [done|]. split; [done|]. split; [done|].
        intros _ _ pid' w1' [= <- <-]. done.
      * split; [done|]. split; [done|]. split; [done|].
        intros _ _ pid' w1' [=].
  - exists built, w. split; [done|]. split; [done|]. split; [done|].
    split; [done|]. done.
Qed.

(** X20: what [_save_rule_state] stores for a rule is what the next
    window of the same project reads into [_initial_state] of that
    rule; the other rules read what the store held before; every rule
    is enabled all the same. *)
Theorem saved_rule_state_read_back (w : W) (self : t) (rule_key : str)
    (checked : bool) (project_directory prompt : str)
    (modified_files : option (list str)) :
  project_group_name self = get_project_settings_group project_directory →
  ∃ self' w',
    init project_directory prompt modified_files
      (settings (_save_rule_state rule_key checked self)) w = (Ok self', w')
    ∧ ∀ key cb, (key, cb) ∈ rules_checkboxes self' →
        isChecked cb = true
        ∧ _initial_state cb
          = if decide (key = rule_key) then checked
            else QSettings.value_bool (settings self)
                   (project_group_name self) (py "rule_" ++ key) true.
Proof.
  intros Hg.
  destruct (init_spec w project_directory prompt modified_files
              (settings (_save_rule_state rule_key checked self)))
    as (self' & w' & Hi & _ & _ & Hr & _).
  exists self', w'. split; [done|]. intros key cb Hin. rewrite Hr in Hin.
  apply list_elem_of_In, in_map_iff in Hin as ([k text] & [= <- <-] & _).
  split; [done|]. cbn [_initial_state fst].
  rewrite <- Hg. unfold _save_rule_state. cbn [settings set_settings].
  destruct (decide (k = rule_key)) as [->|Hne].
  - apply value_bool_set.
  - apply value_bool_set_other. intros E.
    exact (Hne (eq_sym (app_inv_head (py "rule_") rule_key k E))).
Qed.

End WithHost.

End SettingsFacts.

(** * More facts about the compositor *)

Module ComposeMore.
Import FeedbackUI Handlers FeedbackUIFacts SortedFacts.

Lemma rules_section_truthy (lines : list str) :
  truthy (rules_section lines) = true.
Proof. reflexivity. Qed.

Section WithHost.

Context {W : Type} `{Host W}.

(** X21: with no rule enabled and no file selected, the document is
    exactly the free text, stripped, and there is no files section. *)
Theorem compose_text_only (w : W) (self : t) (order : list str) :
  ¬ some_rule_enabled self →
  selected_files self = ∅ →
  ∃ r,
    feedback_result (_submit_feedback w self order) = Some r
    ∧ FeedbackResult.interactive_feedback r = strip (feedback_text self)
    ∧ FeedbackResult.modified_files_content r = None.
Proof.
  intros Hrule Hsel.
  destruct (submit_feedback_result w self order)
    as (r & Hr & _ & _ & Hfiles & Hdoc).
  rewrite (files_content_none w self order Hsel) in Hfiles, Hdoc.
  exists r. split; [done|]. split; [|done]. rewrite Hdoc. cbv zeta.
  destruct (_get_selected_rules self) as [|line lines] eqn:Hl; [done|].
  exfalso. apply Hrule, selected_rules_nonempty. by rewrite Hl.
Qed.

(** X22: the stripped free text is always the end of the document, and
    the document is empty only when the free text is empty, no rule is
    enabled and no file is selected. *)
Theorem document_ends_with_text (w : W) (self : t) (order : list str) :
  ∃ r before,
    feedback_result (_submit_feedback w self order) = Some r
    ∧ FeedbackResult.interactive_feedback r
      = before ++ strip (feedback_text self)
    ∧ (FeedbackResult.interactive_feedback r = [] ↔
       strip (feedback_text self) = []
       ∧ selected_files self = ∅
       ∧ ¬ some_rule_enabled self).
Proof.
  destruct (submit_feedback_result w self order)
    as (r & Hr & _ & _ & _ & Hdoc).
  exists r. cbv zeta in Hdoc.
  pose proof (selected_rules_nonempty self) as Hrules.
  destruct (decide (selected_files self = ∅)) as [He|Hne].
  - rewrite (files_content_none w self order He) in Hdoc.
    destruct (_get_selected_rules self) as [|line lines] eqn:Hl.
    + exists []. split; [done|]. split; [done|]. rewrite Hdoc.
      split; [|tauto]. intros Ht. split; [done|]. split; [done|].
      intros Hr'. by apply Hrules in Hr'.
    + destruct (strip (feedback_text self)) as [|c text] eqn:Ht.
      * exists (rules_section (line :: lines)). rewrite Hdoc. simpl truthy.
        cbv iota. split; [done|]. split; [by rewrite app_nil_r|].
        split; [done|]. intros (_ & _ & Hn). exfalso. apply Hn, Hrules.
        done.
      * exists (rules_section (line :: lines) ++ [LF; LF]).
        rewrite Hdoc. simpl truthy. cbv iota.
        split; [done|]. split; [by rewrite <- app_assoc|].
        split; [done|]. intros (Hn & _). done.
  - destruct (files_content_some w self order Hne) as (c & Hc & _ & Htc).
    rewrite Hc in Hdoc. apply truthy_true in Htc as Hcne.
    assert (∀ rest : str, c ++ rest ≠ []) as Hcapp
      by (intros rest; by destruct c).
    destruct (_get_selected_rules self) as [|line lines] eqn:Hl.
    + destruct (strip (feedback_text self)) as [|ch text] eqn:Ht.
      * exists c. rewrite Hdoc. simpl truthy. cbv iota.
        split; [done|]. split; [by rewrite app_nil_r|].
        split; [done|]. intros (_ & Hs & _). done.
      * exists (c ++ [LF; LF] ++ heading ++ [LF]).
        rewrite Hdoc. simpl truthy. cbv iota.
        split; [done|]. split; [by rewrite <- !app_assoc|].
        split; [intros E; by apply Hcapp in E|]. intros (Hn & _). done.
    + destruct (strip (feedback_text self)) as [|ch text] eqn:Ht.
      * exists (c ++ [LF; LF] ++ heading ++ [LF]
                  ++ rules_section (line :: lines)).
        rewrite Hdoc. simpl truthy. cbv iota.
        try rewrite rules_section_truthy.
        split; [done|]. split; [by rewrite <- !app_assoc, app_nil_r|].
        split; [intros E; by apply Hcapp in E|]. intros (_ & Hs & _). done.
      * exists (c ++ [LF; LF] ++ heading ++ [LF]
                  ++ rules_section (line :: lines) ++ [LF; LF]).
        rewrite Hdoc. simpl truthy. cbv iota.
        try rewrite truthy_app_l by apply rules_section_truthy.
        split; [done|]. split; [by rewrite <- !app_assoc|].
        split; [intros E; by apply Hcapp in E|]. intros (Hn & _). done.
Qed.

(** X23: a file that is missing or cannot be read does not stop the
    composition: every selected file has its heading in the files
    section, followed by [(file not found)] when the file does not
    exist and by [(error reading: ...)] with the message of the error
    when reading raises. *)
Theorem every_selected_file_has_heading (w : W) (self : t)
    (order : list str) (f : str) :
  set_iteration (selected_files self) order →
  f ∈ selected_files self →
  ∃ r section a b,
    feedback_result (_submit_feedback w self order) = Some r
    ∧ FeedbackResult.modified_files_content r = Some section
    ∧ section = a ++ (py "### " ++ f ++ read_note w self f) ++ b.
Proof.
  intros [_ Hord] Hf.
  destruct (submit_feedback_result w self order)
    as (r & Hr & _ & _ & Hfiles & _).
  assert (selected_files self ≠ ∅) as Hne.
  { intros E. rewrite E in Hf. by apply not_elem_of_empty in Hf. }
  destruct (files_content_some w self order Hne) as (c & Hc & Hceq & _).
  rewrite Hc in Hfiles. exists r, c.
  assert (f ∈ order) as Hin.
  { rewrite <- Hord in Hf. by apply elem_of_list_to_set in Hf. }
  destruct (join_elem [LF] (py "### " ++ f ++ read_note w self f)
              ([py "## Files Modified by User:"; []]
                 ++ flat_map (file_block w self) (sorted order)))
    as (a & b & Hab).
  { apply elem_of_app. right. apply list_elem_of_In, in_flat_map.
    exists f. split; [by apply list_elem_of_In, sorted_elem|].
    unfold file_block, read_note.
    destruct (os_path_exists _ w); [|by left].
    destruct (read_text _ w) as [content|msg].
    - rewrite app_nil_r. by left.
    - by left. }
  exists a, b. split; [done|]. split; [done|]. by rewrite Hceq.
Qed.

(** X24: the document, the files section and the logs of the result do
    not depend on the order in which the selection is iterated: two
    results for the same window differ at most in their
    [selected_files] sequence. *)
Theorem document_independent_of_iteration (w : W) (self : t)
    (order1 order2 : list str) :
  set_iteration (selected_files self) order1 →
  set_iteration (selected_files self) order2 →
  ∃ logs document files,
    feedback_result (_submit_feedback w self order1)
    = Some (FeedbackResult.mk logs document files order1)
    ∧ feedback_result (_submit_feedback w self order2)
      = Some (FeedbackResult.mk logs document files order2).
Proof.
  intros H1 H2.
  pose proof (sorted_iteration _ _ _ H1 H2) as Hs.
  assert (_get_selected_files_content w self order1
          = _get_selected_files_content w self order2) as E.
  { unfold _get_selected_files_content. by rewrite Hs. }
  eexists _, _, _. split; [reflexivity|].
  unfold _submit_feedback. by rewrite E.
Qed.

End WithHost.

(** X25: the rules section lists the enabled rules in the order of
    [rules_config], one line per rule: a dash, a blank and the text of
    the rule. *)
Theorem selected_rules_in_declaration_order (self : t) :
  rules_as_configured self →
  _get_selected_rules self
  = List.map (fun rule : str * str => py "- " ++ snd rule)
      (List.filter
         (fun rule : str * str =>
            default false
              (isChecked <$> dict_get (fst rule) (rules_checkboxes self)))
         rules_config).
Proof.
  unfold rules_as_configured, _get_selected_rules. intros Hcfg.
  destruct (rules_checkboxes self)
    as [|[k1 [l1 c1 i1]] [|[k2 [l2 c2 i2]] [|? ?]]];
    try discriminate Hcfg.
  injection Hcfg as -> -> -> ->.
  by destruct c1, c2.
Qed.

End ComposeMore.

(** * The further theorems on concrete sessions *)

Module MoreChecks.
Import FeedbackUI Handlers Examples MoreExamples.
Import WinEnv WinEnvFacts RunnerFacts SettingsFacts ComposeMore
  FeedbackUIChecks.

Lemma env_entries_well_formed (k v : str) :
  (k, v) ∈ env_entries → (61 ∉ k) ∧ (0 ∉ k) ∧ (0 ∉ v).
Proof.
  intros Hin. apply elem_of_cons in Hin as [E|Hin].
  - injection E as -> ->.
    repeat split; refine (bool_decide_unpack _ _); by vm_compute.
  - apply list_elem_of_singleton in Hin. injection Hin as -> ->.
    repeat split; refine (bool_decide_unpack _ _); by vm_compute.
Qed.

Lemma environment_block_round_trip_witness :
  get_user_environment true [] true
    (Some (block_of env_entries ++ py "junk"))
  = Returns env_entries.
Proof.
  destruct (environment_block_round_trip [] env_entries (py "junk")
              env_entries_well_formed) as [Hr Hn].
  rewrite Hr, Hn; [reflexivity|].
  refine (bool_decide_unpack _ _). by vm_compute.
Defined.

Lemma environment_entry_without_equals_witness :
  get_user_environment true [] true
    (Some (py "PATH=C:/bin" ++ [0] ++ py "OPTS=a=b" ++ [0]
             ++ py "BROKEN" ++ [0] ++ [0]))
  = Raises (ValueError (py "substring not found")).
Proof.
  refine (environment_entry_without_equals [] env_entries (py "BROKEN") [0]
            env_entries_well_formed _ _ _).
  - discriminate.
  - refine (bool_decide_unpack _ _). by vm_compute.
  - refine (bool_decide_unpack _ _). by vm_compute.
Defined.

Lemma run_command_launch_failure_witness :
  ∃ self',
    _run_command session_make bare_world = (Ok self', bare_world)
    ∧ process self' = None.
Proof.
  destruct (run_command_launch_failure bare_world bare_world session_make
              (py "[Errno 2] No such file or directory"))
    as (self' & Hr & Hp & _).
  - reflexivity.
  - discriminate.
  - reflexivity.
  - by exists self'.
Defined.

Lemma run_command_toggle_witness :
  ∃ started stopped w' w'',
    _run_command session_make quiet_world = (Ok started, w')
    ∧ process started = Some 100
    ∧ _run_command started w' = (Ok stopped, w'')
    ∧ process stopped = None
    ∧ log_buffer stopped = [py "$ make" ++ [LF]].
Proof.
  destruct (run_command_toggle quiet_world
              (SimpleHost.mk [(100, 0)] [(py "/proj/a.txt", py "hello")]
                 [project] 101)
              (SimpleHost.mk [] [(py "/proj/a.txt", py "hello")]
                 [project] 101)
              session_make 100)
    as (started & stopped & H1 & H2 & _ & H4 & H5 & H6 & _ & H8).
  - reflexivity.
  - discriminate.
  - reflexivity.
  - reflexivity.
  - exists started, stopped. eexists _, _.
    split; [exact H1|]. split; [exact H2|]. split; [exact H5|].
    split; [exact H6|]. by rewrite H8, H4.
Defined.

Lemma exit_observed_then_closed_witness :
  ∃ self' w',
    _check_process_status poll_ended session_running busy_world = (self', w')
    ∧ run self' w'
      = (Ok {| FeedbackResult.command_logs :=
                 py "old output" ++ [LF] ++ [LF]
                   ++ py "Process exited with code 3" ++ [LF];
               FeedbackResult.interactive_feedback := [];
               FeedbackResult.modified_files_content := None;
               FeedbackResult.selected_files := [] |}, w').
Proof.
  destruct (exit_observed_then_closed poll_ended busy_world
              (SimpleHost.forget 10 busy_world) session_running 10 3%Z)
    as (self' & Hc & _ & _ & Hl & Hr).
  - reflexivity.
  - reflexivity.
  - reflexivity.
  - exists self', (SimpleHost.forget 10 busy_world).
    split; [exact Hc|]. rewrite Hr, Hl. reflexivity.
Defined.

Lemma logs_in_arrival_order_witness :
  run (foldl (fun s line => _append_log line s) session_logged
         [py "out1" ++ [LF]; py "out2" ++ [LF]]) quiet_world
  = (Ok {| FeedbackResult.command_logs :=
             py "old output" ++ [LF] ++ py "out1" ++ [LF]
               ++ py "out2" ++ [LF];
           FeedbackResult.interactive_feedback := [];
           FeedbackResult.modified_files_content := None;
           FeedbackResult.selected_files := [] |}, quiet_world).
Proof.
  destruct (logs_in_arrival_order quiet_world session_logged
              [py "out1" ++ [LF]; py "out2" ++ [LF]]) as [Hr _].
  - reflexivity.
  - reflexivity.
  - rewrite Hr. reflexivity.
Defined.

Lemma saved_config_read_back_witness :
  ∃ self' w',
    init project (py "Done.") None (settings (_save_config session_make))
      quiet_world = (Ok self', w')
    ∧ command_entry self' = py "make"
    ∧ process self' = Some 100.
Proof.
  destruct (saved_config_read_back quiet_world session_make project
              (py "Done.") None)
    as (self' & w' & Hi & _ & Hc & _ & Hauto).
  - reflexivity.
  - exists self', w'. split; [exact Hi|]. split; [exact Hc|].
    refine (proj2 (Hauto eq_refl _ 100
                     (SimpleHost.mk [(100, 0)]
                        [(py "/proj/a.txt", py "hello")] [project] 101)
                     eq_refl)).
    discriminate.
Defined.

Lemma saved_rule_state_read_back_witness :
  ∃ self' w',
    init project (py "Done.") None
      (settings (_save_rule_state (py "no_new_md") false session_make))
      quiet_world = (Ok self', w')
    ∧ ∀ key cb, (key, cb) ∈ rules_checkboxes self' → isChecked cb = true.
Proof.
  destruct (saved_rule_state_read_back quiet_world session_make
              (py "no_new_md") false project (py "Done.") None)
    as (self' & w' & Hi & Hr).
  - reflexivity.
  - exists self', w'. split; [exact Hi|]. intros key cb Hin.
    by destruct (Hr key cb Hin).
Defined.

Lemma session_plain_no_rule : ¬ some_rule_enabled session_plain.
Proof.
  intros (key & cb & Hin & Hc). cbn in Hin.
  apply elem_of_cons in Hin as [E|Hin].
  - injection E as _ ->. discriminate Hc.
  - apply list_elem_of_singleton in Hin. injection Hin as _ ->.
    discriminate Hc.
Qed.

Lemma compose_text_only_witness :
  ∃ r,
    feedback_result (_submit_feedback quiet_world session_plain []) = Some r
    ∧ FeedbackResult.interactive_feedback r = py "ok".
Proof.
  destruct (compose_text_only quiet_world session_plain []
              session_plain_no_rule) as (r & Hr & Hd & _).
  - reflexivity.
  - exists r. split; [exact Hr|]. rewrite Hd. reflexivity.
Defined.

Lemma every_selected_file_has_heading_witness :
  ∃ r section a b,
    feedback_result
      (_submit_feedback quiet_world session_b [py "b.md"; py "a.md"])
    = Some r
    ∧ FeedbackResult.modified_files_content r = Some section
    ∧ section = a ++ py "### b.md (file not found)" ++ b.
Proof.
  destruct (every_selected_file_has_heading quiet_world session_b
              [py "b.md"; py "a.md"] (py "b.md") session_b_iteration)
    as (r & section & a & b & Hr & Hs & He).
  - refine (bool_decide_unpack _ _). by vm_compute.
  - exists r, section, a, b. split; [exact Hr|]. split; [exact Hs|].
    exact He.
Defined.

Lemma session_b_iteration_sorted :
  set_iteration (selected_files session_b) [py "a.md"; py "b.md"].
Proof. split; [refine (bool_decide_unpack _ _)|]; by vm_compute. Qed.

Lemma document_independent_of_iteration_witness :
  ∃ logs document files,
    feedback_result
      (_submit_feedback quiet_world session_b [py "b.md"; py "a.md"])
    = Some (FeedbackResult.mk logs document files [py "b.md"; py "a.md"])
    ∧ feedback_result
        (_submit_feedback quiet_world session_b [py "a.md"; py "b.md"])
      = Some (FeedbackResult.mk logs document files [py "a.md"; py "b.md"]).
Proof.
  exact (document_independent_of_iteration quiet_world session_b
           [py "b.md"; py "a.md"] [py "a.md"; py "b.md"]
           session_b_iteration session_b_iteration_sorted).
Defined.

Lemma selected_rules_in_declaration_order_witness :
  _get_selected_rules (session_a (py "ok"))
  = [py "- " ++ default [] (snd <$> head rules_config)].
Proof.
  rewrite (selected_rules_in_declaration_order (session_a (py "ok"))
             (session_a_configured (py "ok"))).
  reflexivity.
Defined.

End MoreChecks.
